(** * The pay-fees store of business-ar (web/site/stores/pay-fees.ts)

    A shallow embedding of the Pinia setup store [usePayFeesStore]: the fee
    ledger ([addFee], [removeFee], [loadFeeTypesAndCharges], [getFeeInfo],
    [addPayFees], [$reset]) and the payment method selector
    ([resetPaymentOptions], [initPaymentMethod], the watcher on
    [userSelectedPaymentMethod]).  The source file holds two revisions of the
    store one after the other; they are embedded as the modules [Rev1] and
    [Rev2]. *)

From Equations Require Import Equations.
From Stdlib Require Import List String Ascii ZArith Bool Arith Lia.
Import ListNotations.

Set Implicit Arguments.
Open Scope string_scope.

(** ** JavaScript values *)

(** A property that TypeScript declares with a type [A] still holds
    [undefined] or [null] at run time; [addFee] tests for both. *)
Inductive field (A : Type) : Type :=
| Undefined
| Null
| Val (a : A).
Arguments Undefined {A}.
Arguments Null {A}.

(** [x == null] *)
Definition nullish {A} (x : field A) : bool :=
  match x with
  | Val _ => false
  | _ => true
  end.

(** [x === y] on properties that hold strings *)
Definition strict_eq (x y : field string) : bool :=
  match x, y with
  | Undefined, Undefined => true
  | Null, Null => true
  | Val a, Val b => String.eqb a b
  | _, _ => false
  end.

Inductive JsError : Type :=
| TypeError
| FetchError (message : string).

(** How a piece of synchronous code ends: with a value or with a throw. *)
Inductive Outcome (A : Type) : Type :=
| Ok (a : A)
| Threw (e : JsError).
Arguments Threw {A} e.

(** How an awaited promise ends. *)
Inductive Settled (A : Type) : Type :=
| Fulfilled (a : A)
| Rejected (e : JsError).
Arguments Rejected {A} e.

(** ** Data model *)

Inductive PaymentMethod : Type := DIRECT_PAY | PAD.

Inductive PaymentStatus : Type := PENDING | PENDING_PAD_ACTIVATION | ACTIVE.

Inductive AlertCategory : Type :=
| PAYMENT_METHOD
| FEE_INFO
| CREATE_ACCOUNT
| INTERNAL_SERVER_ERROR.

Record Alert : Type := { severity : string; category : AlertCategory }.

(** [FeeInfo]: only the properties the store reads; amounts are carried
    along and never computed with, the store only tests them for null. *)
Record FeeInfo : Type := {
  filingType : field string;
  filingTypeCode : field string;
  total : field Z;
  filingFees : field Z
}.

(** [PayFeesWidgetItem]: a [FeeInfo] spread into a new object together with
    [quantity] (optional) and [uiUuid]. *)
Record PayFeesWidgetItem : Type := {
  info : FeeInfo;
  quantity : option Z;
  uiUuid : nat
}.

Record FeeData : Type := {
  entityType : string;
  dataFilingTypeCode : string
}.

Record CfsAccount : Type := {
  status : option PaymentStatus;
  bankAccountNumber : option string
}.

Record ConnectPayAccount : Type := {
  cfsAccount : option CfsAccount;
  paymentMethod : option PaymentMethod
}.

(** [{} as ConnectPayAccount] *)
Definition emptyAccount : ConnectPayAccount :=
  {| cfsAccount := None; paymentMethod := None |}.

Record PaymentOption : Type := { label : string; value : PaymentMethod }.

Definition PaymentMethod_eqb (a b : PaymentMethod) : bool :=
  match a, b with
  | DIRECT_PAY, DIRECT_PAY | PAD, PAD => true
  | _, _ => false
  end.

(** ** The store and what it talks to

    The seven refs of the store, followed by the collaborators the store
    writes to: the alert store ([addAlert] calls, oldest first), the console
    ([console.error] calls), the UUID generator (the next identifier it
    hands out) and the value the watcher of [userSelectedPaymentMethod] saw
    when it last ran. *)
Record State : Type := {
  fees : list PayFeesWidgetItem;
  folioNumber : string;
  feeInfo : list (FeeData * FeeInfo);
  userPaymentAccount : ConnectPayAccount;
  userSelectedPaymentMethod : PaymentMethod;
  allowAlternatePaymentMethod : bool;
  allowedPaymentMethods : list PaymentOption;
  alerts : list Alert;
  console : list string;
  uuidNext : nat;
  watchSeen : PaymentMethod
}.

Definition set_fees (v : list PayFeesWidgetItem) (w : State) : State :=
  {| fees := v; folioNumber := folioNumber w; feeInfo := feeInfo w;
     userPaymentAccount := userPaymentAccount w;
     userSelectedPaymentMethod := userSelectedPaymentMethod w;
     allowAlternatePaymentMethod := allowAlternatePaymentMethod w;
     allowedPaymentMethods := allowedPaymentMethods w;
     alerts := alerts w; console := console w; uuidNext := uuidNext w;
     watchSeen := watchSeen w |}.

Definition set_folioNumber (v : string) (w : State) : State :=
  {| fees := fees w; folioNumber := v; feeInfo := feeInfo w;
     userPaymentAccount := userPaymentAccount w;
     userSelectedPaymentMethod := userSelectedPaymentMethod w;
     allowAlternatePaymentMethod := allowAlternatePaymentMethod w;
     allowedPaymentMethods := allowedPaymentMethods w;
     alerts := alerts w; console := console w; uuidNext := uuidNext w;
     watchSeen := watchSeen w |}.

Definition set_feeInfo (v : list (FeeData * FeeInfo)) (w : State) : State :=
  {| fees := fees w; folioNumber := folioNumber w; feeInfo := v;
     userPaymentAccount := userPaymentAccount w;
     userSelectedPaymentMethod := userSelectedPaymentMethod w;
     allowAlternatePaymentMethod := allowAlternatePaymentMethod w;
     allowedPaymentMethods := allowedPaymentMethods w;
     alerts := alerts w; console := console w; uuidNext := uuidNext w;
     watchSeen := watchSeen w |}.

Definition set_userPaymentAccount (v : ConnectPayAccount) (w : State) : State :=
  {| fees := fees w; folioNumber := folioNumber w; feeInfo := feeInfo w;
     userPaymentAccount := v;
     userSelectedPaymentMethod := userSelectedPaymentMethod w;
     allowAlternatePaymentMethod := allowAlternatePaymentMethod w;
     allowedPaymentMethods := allowedPaymentMethods w;
     alerts := alerts w; console := console w; uuidNext := uuidNext w;
     watchSeen := watchSeen w |}.

Definition set_userSelectedPaymentMethod (v : PaymentMethod) (w : State) : State :=
  {| fees := fees w; folioNumber := folioNumber w; feeInfo := feeInfo w;
     userPaymentAccount := userPaymentAccount w;
     userSelectedPaymentMethod := v;
     allowAlternatePaymentMethod := allowAlternatePaymentMethod w;
     allowedPaymentMethods := allowedPaymentMethods w;
     alerts := alerts w; console := console w; uuidNext := uuidNext w;
     watchSeen := watchSeen w |}.

Definition set_allowAlternatePaymentMethod (v : bool) (w : State) : State :=
  {| fees := fees w; folioNumber := folioNumber w; feeInfo := feeInfo w;
     userPaymentAccount := userPaymentAccount w;
     userSelectedPaymentMethod := userSelectedPaymentMethod w;
     allowAlternatePaymentMethod := v;
     allowedPaymentMethods := allowedPaymentMethods w;
     alerts := alerts w; console := console w; uuidNext := uuidNext w;
     watchSeen := watchSeen w |}.

Definition set_allowedPaymentMethods (v : list PaymentOption) (w : State) : State :=
  {| fees := fees w; folioNumber := folioNumber w; feeInfo := feeInfo w;
     userPaymentAccount := userPaymentAccount w;
     userSelectedPaymentMethod := userSelectedPaymentMethod w;
     allowAlternatePaymentMethod := allowAlternatePaymentMethod w;
     allowedPaymentMethods := v;
     alerts := alerts w; console := console w; uuidNext := uuidNext w;
     watchSeen := watchSeen w |}.

Definition set_alerts (v : list Alert) (w : State) : State :=
  {| fees := fees w; folioNumber := folioNumber w; feeInfo := feeInfo w;
     userPaymentAccount := userPaymentAccount w;
     userSelectedPaymentMethod := userSelectedPaymentMethod w;
     allowAlternatePaymentMethod := allowAlternatePaymentMethod w;
     allowedPaymentMethods := allowedPaymentMethods w;
     alerts := v; console := console w; uuidNext := uuidNext w;
     watchSeen := watchSeen w |}.

Definition set_console (v : list string) (w : State) : State :=
  {| fees := fees w; folioNumber := folioNumber w; feeInfo := feeInfo w;
     userPaymentAccount := userPaymentAccount w;
     userSelectedPaymentMethod := userSelectedPaymentMethod w;
     allowAlternatePaymentMethod := allowAlternatePaymentMethod w;
     allowedPaymentMethods := allowedPaymentMethods w;
     alerts := alerts w; console := v; uuidNext := uuidNext w;
     watchSeen := watchSeen w |}.

Definition set_uuidNext (v : nat) (w : State) : State :=
  {| fees := fees w; folioNumber := folioNumber w; feeInfo := feeInfo w;
     userPaymentAccount := userPaymentAccount w;
     userSelectedPaymentMethod := userSelectedPaymentMethod w;
     allowAlternatePaymentMethod := allowAlternatePaymentMethod w;
     allowedPaymentMethods := allowedPaymentMethods w;
     alerts := alerts w; console := console w; uuidNext := v;
     watchSeen := watchSeen w |}.

Definition set_watchSeen (v : PaymentMethod) (w : State) : State :=
  {| fees := fees w; folioNumber := folioNumber w; feeInfo := feeInfo w;
     userPaymentAccount := userPaymentAccount w;
     userSelectedPaymentMethod := userSelectedPaymentMethod w;
     allowAlternatePaymentMethod := allowAlternatePaymentMethod w;
     allowedPaymentMethods := allowedPaymentMethods w;
     alerts := alerts w; console := console w; uuidNext := uuidNext w;
     watchSeen := v |}.

(** The state the store is created in (lines 17-29 of either revision). *)
Definition initialState : State :=
  {| fees := []; folioNumber := ""; feeInfo := [];
     userPaymentAccount := emptyAccount;
     userSelectedPaymentMethod := DIRECT_PAY;
     allowAlternatePaymentMethod := false;
     allowedPaymentMethods := [];
     alerts := []; console := []; uuidNext := 0;
     watchSeen := DIRECT_PAY |}.

(** [alertStore.addAlert(a)] *)
Definition addAlert (a : Alert) (w : State) : State :=
  set_alerts (alerts w ++ [a]) w.

(** [console.error(...)] *)
Definition console_error (line : string) (w : State) : State :=
  set_console (console w ++ [line]) w.

(** ** Synchronous and asynchronous code

    A synchronous function runs to completion on the state.  An [async]
    function runs until its next [await], where it hands the state back and
    waits for the remote reply; it resumes on whatever state it then finds
    (other handlers may have run in between). *)
Definition Sync (A : Type) : Type := State -> Outcome A * State.

Inductive Async (A : Type) : Type :=
| Done (r : Outcome A) (w : State)
| AwaitFee (request : FeeData) (w : State)
    (k : Settled (option FeeInfo) -> State -> Async A)
| AwaitAccount (w : State)
    (k : Settled ConnectPayAccount -> State -> Async A).

Definition Prog (A : Type) : Type := State -> Async A.

Definition ret {A} (a : A) : Prog A := fun w => Done (Ok a) w.

Definition lift {A} (m : Sync A) : Prog A :=
  fun w => let (r, w') := m w in Done r w'.

Fixpoint andThen {A B} (m : Async A) (f : A -> Prog B) : Async B :=
  match m with
  | Done (Ok a) w => f a w
  | Done (Threw e) w => Done (Threw e) w
  | AwaitFee d w k => AwaitFee d w (fun r w' => andThen (k r w') f)
  | AwaitAccount w k => AwaitAccount w (fun r w' => andThen (k r w') f)
  end.

Definition bind {A B} (m : Prog A) (f : A -> Prog B) : Prog B :=
  fun w => andThen (m w) f.

(** [try { m } catch (e) { h e }] *)
Fixpoint tryCatch {A} (m : Async A) (h : JsError -> Prog A) : Async A :=
  match m with
  | Done (Ok a) w => Done (Ok a) w
  | Done (Threw e) w => h e w
  | AwaitFee d w k => AwaitFee d w (fun r w' => tryCatch (k r w') h)
  | AwaitAccount w k => AwaitAccount w (fun r w' => tryCatch (k r w') h)
  end.

Declare Scope prog_scope.
Delimit Scope prog_scope with prog.
Notation "x <- m ;; k" := (bind m (fun x => k))
  (at level 61, m at next level, right associativity) : prog_scope.
Notation "m ;;; k" := (bind m (fun _ => k))
  (at level 61, right associativity) : prog_scope.

(** Keeps the equation of a test for the branches of a definition. *)
Definition inspect {A} (a : A) : {b : A | a = b} := exist _ a eq_refl.

(** ** Array methods with a callback that may throw *)

(** [l.findIndex(p)]; [None] is the source's [-1]. *)
Fixpoint js_findIndex {A} (p : A -> Outcome bool) (l : list A)
  : Outcome (option nat) :=
  match l with
  | [] => Ok None
  | x :: rest =>
      match p x with
      | Threw e => Threw e
      | Ok true => Ok (Some 0)
      | Ok false =>
          match js_findIndex p rest with
          | Ok (Some i) => Ok (Some (S i))
          | other => other
          end
      end
  end.

(** [l.find(p)].  The store mutates the object [find] returns, so the
    result is the position of that object in the array. *)
Definition js_find {A} (p : A -> Outcome bool) (l : list A)
  : Outcome (option nat) := js_findIndex p l.

(** Assignment to a property of the object at position [i]. *)
Fixpoint update_at {A} (i : nat) (f : A -> A) (l : list A) : list A :=
  match l, i with
  | [], _ => []
  | x :: rest, 0 => f x :: rest
  | x :: rest, S j => x :: update_at j f rest
  end.

(** [l.splice(index, 1)] *)
Definition splice1 {A} (index : nat) (l : list A) : list A :=
  firstn index l ++ skipn (S index) l.

(** ** First revision of the store (lines 16-203) *)
Module Rev1.

Definition PAD_PENDING_STATES : list PaymentStatus :=
  [PENDING; PENDING_PAD_ACTIVATION].

(** [PAD_PENDING_STATES.includes(s)]; [undefined] is not in the array. *)
Definition includes (l : list PaymentStatus) (s : option PaymentStatus) : bool :=
  match s with
  | None => false
  | Some x =>
      existsb (fun y =>
        match x, y with
        | PENDING, PENDING
        | PENDING_PAD_ACTIVATION, PENDING_PAD_ACTIVATION
        | ACTIVE, ACTIVE => true
        | _, _ => false
        end) l
  end.

(** [account?.cfsAccount?.status] *)
Definition cfsStatus (account : ConnectPayAccount) : option PaymentStatus :=
  match cfsAccount account with
  | Some cfs => status cfs
  | None => None
  end.

(** The callback of [watch(userSelectedPaymentMethod, ...)], lines 32-42. *)
Definition watchCallback (w : State) : State :=
  match cfsStatus (userPaymentAccount w) with
  | Some _ =>
      if includes PAD_PENDING_STATES (cfsStatus (userPaymentAccount w)) then
        let w := set_userSelectedPaymentMethod DIRECT_PAY w in
        addAlert {| severity := "error"; category := PAYMENT_METHOD |} w
      else w
  | None => w
  end.

(** An upper bound on the runs of the watcher job still to come; it is the
    measure that makes [flushJobs] terminate. *)
Definition jobsLeft (w : State) : nat :=
  if PaymentMethod_eqb (userSelectedPaymentMethod w) (watchSeen w) then 0
  else
    if includes PAD_PENDING_STATES (cfsStatus (userPaymentAccount w))
       && negb (PaymentMethod_eqb (userSelectedPaymentMethod w) DIRECT_PAY)
    then 2 else 1.

(** The watcher job of the reactivity runtime ([watch] is the framework's,
    not the store's).  A write to the ref that changes its value queues the
    job; the job compares the ref with the value it saw last, and when they
    differ records the new value and calls the callback.  A callback that
    writes its own source queues the job again.  The queue is flushed when
    the running synchronous code has finished, so [flushJobs] runs the job
    until the ref and the value last seen agree. *)
Equations? flushJobs (w : State) : State by wf (jobsLeft w) lt :=
  flushJobs w with
      inspect (PaymentMethod_eqb (userSelectedPaymentMethod w) (watchSeen w)) => {
    | exist _ true _ => w
    | exist _ false _ =>
        flushJobs (watchCallback (set_watchSeen (userSelectedPaymentMethod w) w)) }.
Proof.
  clear flushJobs.
  destruct w as [? ? ? [[[[[| |]|] ?]|] ?] sel ? ? ? ? ? seen];
    destruct sel, seen; simpl in e; try discriminate e;
    unfold jobsLeft, watchCallback, cfsStatus; simpl; lia.
Qed.

(** Lines 45-50. *)
Definition resetPaymentOptions : Sync unit := fun w =>
  let w := set_userPaymentAccount emptyAccount w in
  let w := set_userSelectedPaymentMethod PAD w in
  let w := set_allowAlternatePaymentMethod false w in
  let w := set_allowedPaymentMethods [] w in
  (Ok tt, w).

(** Lines 51-93.  Everything from the evaluation of the request URL to the
    arrival of the response is the one [await]; a failure there is a
    rejected reply. *)
Definition initPaymentMethod : Prog unit := fun w =>
  let w := snd (resetPaymentOptions w) in
  tryCatch
    (AwaitAccount w (fun reply w =>
       match reply with
       | Rejected e => Done (Threw e) w
       | Fulfilled response =>
           let w := set_userPaymentAccount response w in
           let accountNum :=
             match cfsAccount (userPaymentAccount w) with
             | Some cfs =>
                 match bankAccountNumber cfs with
                 | Some n => n
                 | None => ""
                 end
             | None => ""
             end in
           let w := set_allowedPaymentMethods
                      [ {| label := "Credit Card"; value := DIRECT_PAY |};
                        {| label := "PAD Account " ++ accountNum; value := PAD |} ] w in
           let w :=
             if includes PAD_PENDING_STATES (cfsStatus response)
             then set_userSelectedPaymentMethod DIRECT_PAY w
             else w in
           Done (Ok tt) (set_allowAlternatePaymentMethod true w)
       end))
    (fun e w =>
       let w := console_error "Error initializing payment method:" w in
       Done (Ok tt)
         (addAlert {| severity := "error"; category := PAYMENT_METHOD |} w)).

(** The callback of [find]/[findIndex] in [addFee] and [removeFee]:
    reading a property of a [null] or [undefined] argument throws. *)
Definition sameFiling (newFee : option FeeInfo) (fee : PayFeesWidgetItem)
  : Outcome bool :=
  match newFee with
  | None => Threw TypeError
  | Some newFee =>
      Ok (strict_eq (filingType (info fee)) (filingType newFee)
          && strict_eq (filingTypeCode (info fee)) (filingTypeCode newFee))
  end.

(** Lines 95-113. *)
Definition addFee (newFee : option FeeInfo) : Sync unit := fun w =>
  match js_find (sameFiling newFee) (fees w) with
  | Threw e => (Threw e, w)
  | Ok (Some fee) =>
      (Ok tt,
       set_fees
         (update_at fee
            (fun f =>
               match quantity f with
               | None => {| info := info f; quantity := Some 1%Z; uiUuid := uiUuid f |}
               | Some q => {| info := info f; quantity := Some (q + 1)%Z; uiUuid := uiUuid f |}
               end)
            (fees w)) w)
  | Ok None =>
      match newFee with
      | None =>
          (Ok tt, console_error "Trying to add INVALID FEE; Fee is missing details. Fee:" w)
      | Some x =>
          if nullish (total x) || nullish (filingFees x) || nullish (filingTypeCode x)
          then
            (Ok tt, console_error "Trying to add INVALID FEE; Fee is missing details. Fee:" w)
          else
            let uuid := uuidNext w in
            let w := set_uuidNext (S uuid) w in
            (Ok tt,
             set_fees (fees w ++ [ {| info := x; quantity := Some 1%Z; uiUuid := uuid |} ]) w)
      end
  end.

(** Lines 115-130. *)
Definition removeFee (feeToRemove : option FeeInfo) : Sync unit := fun w =>
  match js_find (sameFiling feeToRemove) (fees w) with
  | Threw e => (Threw e, w)
  | Ok fee =>
      let q :=
        match fee with
        | Some i =>
            match nth_error (fees w) i with
            | Some f => quantity f
            | None => None
            end
        | None => None
        end in
      if match q with
         | Some n => negb (n =? 0)%Z && (1 <? n)%Z
         | None => false
         end
      then
        match fee with
        | Some i =>
            (Ok tt,
             set_fees
               (update_at i
                  (fun f =>
                     {| info := info f;
                        quantity := option_map (fun n => (n - 1)%Z) (quantity f);
                        uiUuid := uiUuid f |})
                  (fees w)) w)
        | None => (Ok tt, w)
        end
      else
        match js_findIndex (sameFiling feeToRemove) (fees w) with
        | Threw e => (Threw e, w)
        | Ok (Some index) => (Ok tt, set_fees (splice1 index (fees w)) w)
        | Ok None => (Ok tt, w)
        end
  end.

(** The loop of [loadFeeTypesAndCharges], lines 136-141. *)
Fixpoint fetchEach (filingData : list FeeData) (w : State) : Async unit :=
  match filingData with
  | [] => Done (Ok tt) w
  | filingDataItem :: rest =>
      AwaitFee filingDataItem w (fun reply w =>
        match reply with
        | Rejected e => Done (Threw e) w
        | Fulfilled (Some fee) =>
            fetchEach rest (set_feeInfo (feeInfo w ++ [(filingDataItem, fee)]) w)
        | Fulfilled None => fetchEach rest w
        end)
  end.

(** Lines 132-142. *)
Definition loadFeeTypesAndCharges (newFolioNumber : string)
    (filingData : list FeeData) : Prog unit := fun w =>
  fetchEach filingData (set_folioNumber newFolioNumber w).

Definition sameFilingData (searchFilingData : FeeData)
    (entry : FeeData * FeeInfo) : bool :=
  String.eqb (entityType (fst entry)) (entityType searchFilingData)
  && String.eqb (dataFilingTypeCode (fst entry)) (dataFilingTypeCode searchFilingData).

(** Lines 144-158; the recursive call is the source's. *)
Equations getFeeInfo (searchFilingData : FeeData) (tryLoadIfNotCached : bool)
    (w : State) : Async (option FeeInfo)
    by wf (Nat.b2n tryLoadIfNotCached) lt :=
  getFeeInfo searchFilingData tryLoadIfNotCached w with
      find (sameFilingData searchFilingData) (feeInfo w) => {
    | Some feeInfoItem => Done (Ok (Some (snd feeInfoItem))) w
    | None with tryLoadIfNotCached => {
      | true =>
          andThen (loadFeeTypesAndCharges (folioNumber w) [searchFilingData] w)
            (fun _ w => getFeeInfo searchFilingData false w)
      | false => Done (Ok None) w } }.

Section FeeTypes.
(** [payApi.feeType], the static table of the pay-api service, typed as a
    table of [FeeData]; it is not part of the store and is a parameter. *)
Variable feeType : string -> FeeData.

(** Lines 161-176. *)
Definition addPayFees (feeCode : string) : Prog unit := fun w =>
  tryCatch
    (let fee := feeType feeCode in
     andThen (getFeeInfo fee true w) (fun feeInfo =>
       match feeInfo with
       | Some feeInfo => lift (addFee (Some feeInfo))
       | None => ret tt
       end))
    (fun _ w =>
       Done (Ok tt) (addAlert {| severity := "error"; category := FEE_INFO |} w)).
End FeeTypes.

(** [$reset], lines 178-182. *)
Definition dollar_reset : Sync unit := fun w =>
  let w := set_fees [] w in
  let w := set_folioNumber "" w in
  let w := set_feeInfo [] w in
  (Ok tt, w).

End Rev1.

(** ** Second revision of the store (lines 219-407)

    Its [initPaymentMethod] (lines 252-298) stores the response's own
    [paymentMethod], whatever it holds, in the ref; no property below
    depends on it and it is left out. *)
Module Rev2.

(** [['PENDING', 'PENDING_PAD_ACTIVATION']]: the values of the enum
    members. *)
Definition PAD_PENDING_STATES : list PaymentStatus :=
  [PENDING; PENDING_PAD_ACTIVATION].

(** [PAD_PENDING_STATES.includes(s)]; [undefined] is not in the array. *)
Definition includes (l : list PaymentStatus) (s : option PaymentStatus) : bool :=
  match s with
  | None => false
  | Some x =>
      existsb (fun y =>
        match x, y with
        | PENDING, PENDING
        | PENDING_PAD_ACTIVATION, PENDING_PAD_ACTIVATION
        | ACTIVE, ACTIVE => true
        | _, _ => false
        end) l
  end.

(** [account?.cfsAccount?.status] *)
Definition cfsStatus (account : ConnectPayAccount) : option PaymentStatus :=
  match cfsAccount account with
  | Some cfs => status cfs
  | None => None
  end.

(** The callback of [watch(userSelectedPaymentMethod, ...)], lines 232-242. *)
Definition watchCallback (w : State) : State :=
  match cfsStatus (userPaymentAccount w) with
  | Some _ =>
      if includes PAD_PENDING_STATES (cfsStatus (userPaymentAccount w)) then
        let w := set_userSelectedPaymentMethod DIRECT_PAY w in
        addAlert {| severity := "error"; category := PAYMENT_METHOD |} w
      else w
  | None => w
  end.

(** An upper bound on the runs of the watcher job still to come; it is the
    measure that makes [flushJobs] terminate. *)
Definition jobsLeft (w : State) : nat :=
  if PaymentMethod_eqb (userSelectedPaymentMethod w) (watchSeen w) then 0
  else
    if includes PAD_PENDING_STATES (cfsStatus (userPaymentAccount w))
       && negb (PaymentMethod_eqb (userSelectedPaymentMethod w) DIRECT_PAY)
    then 2 else 1.

(** The watcher job of the reactivity runtime ([watch] is the framework's,
    not the store's).  A write to the ref that changes its value queues the
    job; the job compares the ref with the value it saw last, and when they
    differ records the new value and calls the callback.  A callback that
    writes its own source queues the job again.  The queue is flushed when
    the running synchronous code has finished, so [flushJobs] runs the job
    until the ref and the value last seen agree. *)
Equations? flushJobs (w : State) : State by wf (jobsLeft w) lt :=
  flushJobs w with
      inspect (PaymentMethod_eqb (userSelectedPaymentMethod w) (watchSeen w)) => {
    | exist _ true _ => w
    | exist _ false _ =>
        flushJobs (watchCallback (set_watchSeen (userSelectedPaymentMethod w) w)) }.
Proof.
  clear flushJobs.
  destruct w as [? ? ? [[[[[| |]|] ?]|] ?] sel ? ? ? ? ? seen];
    destruct sel, seen; simpl in e; try discriminate e;
    unfold jobsLeft, watchCallback, cfsStatus; simpl; lia.
Qed.

(** Lines 245-250. *)
Definition resetPaymentOptions : Sync unit := fun w =>
  let w := set_userPaymentAccount emptyAccount w in
  let w := set_userSelectedPaymentMethod DIRECT_PAY w in
  let w := set_allowAlternatePaymentMethod false w in
  let w := set_allowedPaymentMethods [] w in
  (Ok tt, w).

(** The callback of [find]/[findIndex] in [addFee] and [removeFee]:
    reading a property of a [null] or [undefined] argument throws. *)
Definition sameFiling (newFee : option FeeInfo) (fee : PayFeesWidgetItem)
  : Outcome bool :=
  match newFee with
  | None => Threw TypeError
  | Some newFee =>
      Ok (strict_eq (filingType (info fee)) (filingType newFee)
          && strict_eq (filingTypeCode (info fee)) (filingTypeCode newFee))
  end.

(** Lines 299-317. *)
Definition addFee (newFee : option FeeInfo) : Sync unit := fun w =>
  match js_find (sameFiling newFee) (fees w) with
  | Threw e => (Threw e, w)
  | Ok (Some fee) =>
      (Ok tt,
       set_fees
         (update_at fee
            (fun f =>
               match quantity f with
               | None => {| info := info f; quantity := Some 1%Z; uiUuid := uiUuid f |}
               | Some q => {| info := info f; quantity := Some (q + 1)%Z; uiUuid := uiUuid f |}
               end)
            (fees w)) w)
  | Ok None =>
      match newFee with
      | None =>
          (Ok tt, console_error "Trying to add INVALID FEE; Fee is missing details. Fee:" w)
      | Some x =>
          if nullish (total x) || nullish (filingFees x) || nullish (filingTypeCode x)
          then
            (Ok tt, console_error "Trying to add INVALID FEE; Fee is missing details. Fee:" w)
          else
            let uuid := uuidNext w in
            let w := set_uuidNext (S uuid) w in
            (Ok tt,
             set_fees (fees w ++ [ {| info := x; quantity := Some 1%Z; uiUuid := uuid |} ]) w)
      end
  end.

(** Lines 319-334. *)
Definition removeFee (feeToRemove : option FeeInfo) : Sync unit := fun w =>
  match js_find (sameFiling feeToRemove) (fees w) with
  | Threw e => (Threw e, w)
  | Ok fee =>
      let q :=
        match fee with
        | Some i =>
            match nth_error (fees w) i with
            | Some f => quantity f
            | None => None
            end
        | None => None
        end in
      if match q with
         | Some n => negb (n =? 0)%Z && (1 <? n)%Z
         | None => false
         end
      then
        match fee with
        | Some i =>
            (Ok tt,
             set_fees
               (update_at i
                  (fun f =>
                     {| info := info f;
                        quantity := option_map (fun n => (n - 1)%Z) (quantity f);
                        uiUuid := uiUuid f |})
                  (fees w)) w)
        | None => (Ok tt, w)
        end
      else
        match js_findIndex (sameFiling feeToRemove) (fees w) with
        | Threw e => (Threw e, w)
        | Ok (Some index) => (Ok tt, set_fees (splice1 index (fees w)) w)
        | Ok None => (Ok tt, w)
        end
  end.

(** The loop of [loadFeeTypesAndCharges], lines 340-345. *)
Fixpoint fetchEach (filingData : list FeeData) (w : State) : Async unit :=
  match filingData with
  | [] => Done (Ok tt) w
  | filingDataItem :: rest =>
      AwaitFee filingDataItem w (fun reply w =>
        match reply with
        | Rejected e => Done (Threw e) w
        | Fulfilled (Some fee) =>
            fetchEach rest (set_feeInfo (feeInfo w ++ [(filingDataItem, fee)]) w)
        | Fulfilled None => fetchEach rest w
        end)
  end.

(** Lines 336-346. *)
Definition loadFeeTypesAndCharges (newFolioNumber : string)
    (filingData : list FeeData) : Prog unit := fun w =>
  fetchEach filingData (set_folioNumber newFolioNumber w).

Definition sameFilingData (searchFilingData : FeeData)
    (entry : FeeData * FeeInfo) : bool :=
  String.eqb (entityType (fst entry)) (entityType searchFilingData)
  && String.eqb (dataFilingTypeCode (fst entry)) (dataFilingTypeCode searchFilingData).

(** Lines 348-362; the recursive call is the source's. *)
Equations getFeeInfo (searchFilingData : FeeData) (tryLoadIfNotCached : bool)
    (w : State) : Async (option FeeInfo)
    by wf (Nat.b2n tryLoadIfNotCached) lt :=
  getFeeInfo searchFilingData tryLoadIfNotCached w with
      find (sameFilingData searchFilingData) (feeInfo w) => {
    | Some feeInfoItem => Done (Ok (Some (snd feeInfoItem))) w
    | None with tryLoadIfNotCached => {
      | true =>
          andThen (loadFeeTypesAndCharges (folioNumber w) [searchFilingData] w)
            (fun _ w => getFeeInfo searchFilingData false w)
      | false => Done (Ok None) w } }.

Section FeeTypes.
(** [payApi.feeType], the static table of the pay-api service, typed as a
    table of [FeeData]; it is not part of the store and is a parameter. *)
Variable feeType : string -> FeeData.

(** Lines 365-380. *)
Definition addPayFees (feeCode : string) : Prog unit := fun w =>
  tryCatch
    (let fee := feeType feeCode in
     andThen (getFeeInfo fee true w) (fun feeInfo =>
       match feeInfo with
       | Some feeInfo => lift (addFee (Some feeInfo))
       | None => ret tt
       end))
    (fun _ w =>
       Done (Ok tt) (addAlert {| severity := "error"; category := FEE_INFO |} w)).
End FeeTypes.

(** [$reset], lines 382-386. *)
Definition dollar_reset : Sync unit := fun w =>
  let w := set_fees [] w in
  let w := set_folioNumber "" w in
  let w := set_feeInfo [] w in
  (Ok tt, w).

End Rev2.

(** ** Running an asynchronous function against the remote services

    [fetchFee] of the pay-api service and the payment account request of
    [useBarApi] are outside the store.  A remote is what they answer to the
    [n]-th remote call of a run.  Awaiting hands control to the event loop,
    which first flushes the queued watcher jobs; the same holds when the
    function is done. *)
Record Remote : Type := {
  fetchFee : nat -> FeeData -> Settled (option FeeInfo);
  getPaymentAccount : nat -> Settled ConnectPayAccount
}.

Inductive Request : Type :=
| FetchFee (filingData : FeeData)
| GetPaymentAccount.

Record Run (A : Type) : Type := {
  result : Outcome A;
  final : State;
  calls : list Request
}.

Section Running.
Variable flush : State -> State.
Variable remote : Remote.

Fixpoint run {A} (n : nat) (m : Async A) : Run A :=
  match m with
  | Done r w => {| result := r; final := flush w; calls := [] |}
  | AwaitFee d w k =>
      let r := run (S n) (k (fetchFee remote n d) (flush w)) in
      {| result := result r; final := final r; calls := FetchFee d :: calls r |}
  | AwaitAccount w k =>
      let r := run (S n) (k (getPaymentAccount remote n) (flush w)) in
      {| result := result r; final := final r; calls := GetPaymentAccount :: calls r |}
  end.
End Running.

(** A synchronous call from an event handler, followed by the flush. *)
Definition call {A} (flush : State -> State) (m : Sync A) (w : State)
  : Outcome A * State :=
  let (r, w') := m w in (r, flush w').

Unset Implicit Arguments.

(** ** The create account page (src/unnamed/part_000)

    The logic of the page that does not live in the form library: which
    widget the region field is, and what a change of the country does to the
    region.  Of [accountDetails] only the country and the region of the
    mailing address are read by it. *)
Module CreateAccount.

(** [c.toLowerCase()].  The results are only compared with ['ca'] and
    ['us'], and no character outside A-Z has c, a, u or s as its lower case,
    so the letters A-Z are the only ones that matter. *)
Definition lowerAscii (c : ascii) : ascii :=
  let n := nat_of_ascii c in
  if ((65 <=? n)%nat && (n <=? 90)%nat)%bool then ascii_of_nat (n + 32) else c.

Fixpoint toLowerCase (s : string) : string :=
  match s with
  | EmptyString => EmptyString
  | String c rest => String (lowerAscii c) (toLowerCase rest)
  end.

(** [x === 'ca' || x === 'us'] on a value that may be [undefined]. *)
Definition caOrUs (code : option string) : bool :=
  match code with
  | Some c => String.eqb c "ca" || String.eqb c "us"
  | None => false
  end.

(** The page state the logic reads and writes; the last field counts the
    silent validations of the region field asked of the form. *)
Record Page : Type := {
  country : option string;
  region : option string;
  regionValidations : nat
}.

(** The page as it is set up (lines 24-40). *)
Definition newPage : Page :=
  {| country := Some "CA"; region := None; regionValidations := 0 |}.

(** Lines 52-55. *)
Definition isRegionDropdown (p : Page) : bool :=
  let selectedCountryCode := option_map toLowerCase (country p) in
  caOrUs selectedCountryCode.

(** The callback of the watcher of the country, lines 102-117. *)
Definition onCountryChange (newCountry oldCountry : option string) (p : Page)
  : Page :=
  let oldCountryCode := option_map toLowerCase oldCountry in
  let newCountryCode := option_map toLowerCase newCountry in
  let wasDropdown := caOrUs oldCountryCode in
  let isNowDropdown := caOrUs newCountryCode in
  if wasDropdown && negb isNowDropdown then
    {| country := country p; region := None;
       regionValidations := S (regionValidations p) |}
  else if negb wasDropdown && isNowDropdown then
    {| country := country p; region := None;
       regionValidations := S (regionValidations p) |}
  else p.

(** [Object.is] on two countries. *)
Definition sameCountry (a b : option string) : bool :=
  match a, b with
  | Some x, Some y => String.eqb x y
  | None, None => true
  | _, _ => false
  end.

(** The select menu writes the country; the watcher runs when the value
    has changed, with the new and the old value. *)
Definition selectCountry (c : option string) (p : Page) : Page :=
  if sameCountry c (country p) then p
  else
    onCountryChange c (country p)
      {| country := c; region := region p;
         regionValidations := regionValidations p |}.

(** One selection after the other, with no edit of the region in between. *)
Definition selectCountries (cs : list (option string)) (p : Page) : Page :=
  fold_left (fun p c => selectCountry c p) cs p.

(** The region field of a page with this country is the dropdown. *)
Definition dropdownFor (c : option string) : bool :=
  isRegionDropdown {| country := c; region := None; regionValidations := 0 |}.

End CreateAccount.

(** ** Vocabulary of the properties *)

(** The uniqueness key of a ledger entry and of a fee item. *)
Definition key (f : PayFeesWidgetItem) : field string * field string :=
  (filingType (info f), filingTypeCode (info f)).

Definition keyOf (x : FeeInfo) : field string * field string :=
  (filingType x, filingTypeCode x).

(** The test of the [find] callbacks on an argument that is an object. *)
Definition keyEq (x : FeeInfo) (f : PayFeesWidgetItem) : bool :=
  strict_eq (filingType (info f)) (filingType x)
  && strict_eq (filingTypeCode (info f)) (filingTypeCode x).

(** Position of the first element that passes a test that cannot throw. *)
Fixpoint index_of {A} (p : A -> bool) (l : list A) : option nat :=
  match l with
  | [] => None
  | x :: rest => if p x then Some 0 else option_map S (index_of p rest)
  end.

Definition quantity_ok (f : PayFeesWidgetItem) : Prop :=
  exists q, quantity f = Some q /\ (1 <= q)%Z.

(** A fee item [addFee] refuses to insert. *)
Definition malformed (x : FeeInfo) : bool :=
  nullish (total x) || nullish (filingFees x) || nullish (filingTypeCode x).

Definition invalidFeeLine : string :=
  "Trying to add INVALID FEE; Fee is missing details. Fee:".

Inductive LedgerCall : Type :=
| CallAddFee (newFee : option FeeInfo)
| CallRemoveFee (feeToRemove : option FeeInfo).

Definition perform (c : LedgerCall) : Sync unit :=
  match c with
  | CallAddFee x => Rev1.addFee x
  | CallRemoveFee x => Rev1.removeFee x
  end.

(** The state after a sequence of calls made one event after another; a
    call that throws leaves the state as it was when it threw. *)
Definition afterCalls (cs : list LedgerCall) (w : State) : State :=
  fold_left (fun w c => snd (call Rev1.flushJobs (perform c) w)) cs w.

(** What the watcher never writes: the ledger refs, the identifier
    generator and the console. *)
Definition sameLedger (w w' : State) : Prop :=
  fees w' = fees w /\ folioNumber w' = folioNumber w /\ feeInfo w' = feeInfo w
  /\ uuidNext w' = uuidNext w /\ console w' = console w.

(** The account snapshot and what is derived from it agree. *)
Definition sameAccount (w w' : State) : Prop :=
  userPaymentAccount w' = userPaymentAccount w
  /\ allowAlternatePaymentMethod w' = allowAlternatePaymentMethod w
  /\ allowedPaymentMethods w' = allowedPaymentMethods w.

(** The ledger invariant: keys are pairwise distinct and every quantity is
    a number that is at least 1. *)
Definition ledger_ok (l : list PayFeesWidgetItem) : Prop :=
  NoDup (map key l) /\ Forall quantity_ok l.

(** The annual report fee of the scenarios. *)
Definition bcann : FeeInfo :=
  {| filingType := Val "ANNUAL_REPORT"; filingTypeCode := Val "BCANN";
     total := Val 20%Z; filingFees := Val 20%Z |}.

(** The same item with [total: null]. *)
Definition bcannNullTotal : FeeInfo :=
  {| filingType := Val "ANNUAL_REPORT"; filingTypeCode := Val "BCANN";
     total := Null; filingFees := Val 20%Z |}.

(** The store after [bcann] was added once to the new store. *)
Definition oneBcann : State := snd (Rev1.addFee (Some bcann) initialState).

(** The seven refs of the store agree. *)
Definition sameStore (w w' : State) : Prop :=
  fees w' = fees w /\ folioNumber w' = folioNumber w /\ feeInfo w' = feeInfo w
  /\ userPaymentAccount w' = userPaymentAccount w
  /\ userSelectedPaymentMethod w' = userSelectedPaymentMethod w
  /\ allowAlternatePaymentMethod w' = allowAlternatePaymentMethod w
  /\ allowedPaymentMethods w' = allowedPaymentMethods w.



(** Runs of the first revision, with its own watcher. *)
Definition exec {A} (remote : Remote) (n : nat) (m : Async A) : Run A :=
  run Rev1.flushJobs remote n m.

(** The cache holds an entry for the (entityType, filingTypeCode) key. *)
Definition cachedKey (d : FeeData) (w : State) : Prop :=
  exists e, In e (feeInfo w)
            /\ entityType (fst e) = entityType d
            /\ dataFilingTypeCode (fst e) = dataFilingTypeCode d.

(** A filing data descriptor. *)
Definition feeData (entity code : string) : FeeData :=
  {| entityType := entity; dataFilingTypeCode := code |}.

(** A remote that knows the annual report fee of benefit companies only. *)
Definition bcannRemote : Remote :=
  {| fetchFee := fun _ d =>
       if String.eqb (dataFilingTypeCode d) "BCANN"
       then Fulfilled (Some bcann) else Fulfilled None;
     getPaymentAccount := fun _ => Rejected (FetchError "offline") |}.

(** Every call of the batch is fulfilled (with a fee or with [undefined]). *)
Fixpoint allFulfilled (remote : Remote) (n : nat) (ds : list FeeData) : bool :=
  match ds with
  | [] => true
  | d :: rest =>
      match fetchFee remote n d with
      | Fulfilled _ => allFulfilled remote (S n) rest
      | Rejected _ => false
      end
  end.

(** The pairs a batch contributes when each lookup that does not produce a
    fee is skipped: in list order, one pair per descriptor whose call is
    fulfilled with a fee. *)
Fixpoint found (remote : Remote) (n : nat) (ds : list FeeData)
  : list (FeeData * FeeInfo) :=
  match ds with
  | [] => []
  | d :: rest =>
      match fetchFee remote n d with
      | Fulfilled (Some fee) => (d, fee) :: found remote (S n) rest
      | _ => found remote (S n) rest
      end
  end.

(** A remote whose first call fails and whose later calls succeed. *)
Definition flakyRemote : Remote :=
  {| fetchFee := fun n _ =>
       match n with
       | 0 => Rejected (FetchError "503")
       | _ => Fulfilled (Some bcann)
       end;
     getPaymentAccount := fun _ => Rejected (FetchError "503") |}.

(** The caller's assignment [store.userSelectedPaymentMethod = v]. *)
Definition selectPaymentMethod (v : PaymentMethod) : Sync unit :=
  fun w => (Ok tt, set_userSelectedPaymentMethod v w).

(** An account whose PAD is waiting for activation. *)
Definition pendingAccount : ConnectPayAccount :=
  {| cfsAccount := Some {| status := Some PENDING_PAD_ACTIVATION;
                           bankAccountNumber := Some "XXX123" |};
     paymentMethod := Some PAD |}.

(** A store that holds the snapshot of an account whose PAD is pending,
    with credit card selected and no alert raised. *)
Definition pendingStore : State :=
  set_userPaymentAccount pendingAccount initialState.

(** The alert of the watcher and of [initPaymentMethod]. *)
Definition paymentMethodAlert : Alert :=
  {| severity := "error"; category := PAYMENT_METHOD |}.

(** ** Further vocabulary: the ledger, the cache and [addPayFees] *)


(** An entry with its quantity replaced. *)
Definition withQuantity (q : Z) (f : PayFeesWidgetItem) : PayFeesWidgetItem :=
  {| info := info f; quantity := Some q; uiUuid := uiUuid f |}.

(** The entries of a ledger whose key is not the key of [x], in order. *)
Definition others (x : FeeInfo) (l : list PayFeesWidgetItem)
  : list PayFeesWidgetItem :=
  filter (fun f => negb (keyEq x f)) l.

(** Everything but the ledger, the identifier generator and the console
    agrees. *)
Definition sameBesidesLedger (w w' : State) : Prop :=
  folioNumber w' = folioNumber w /\ feeInfo w' = feeInfo w
  /\ userPaymentAccount w' = userPaymentAccount w
  /\ userSelectedPaymentMethod w' = userSelectedPaymentMethod w
  /\ allowAlternatePaymentMethod w' = allowAlternatePaymentMethod w
  /\ allowedPaymentMethods w' = allowedPaymentMethods w
  /\ alerts w' = alerts w /\ watchSeen w' = watchSeen w.

(** The identifiers of the entries are pairwise distinct and were all
    handed out before [next]. *)
Definition ids_ok (next : nat) (l : list PayFeesWidgetItem) : Prop :=
  NoDup (map uiUuid l) /\ Forall (fun f => uiUuid f < next) l.


(** An account whose PAD is active. *)
Definition activeAccount : ConnectPayAccount :=
  {| cfsAccount := Some {| status := Some ACTIVE;
                           bankAccountNumber := Some "XXX123" |};
     paymentMethod := Some PAD |}.

(** A remote that answers every payment account request with the given
    account and knows the annual report fee. *)
Definition accountRemote (account : ConnectPayAccount) : Remote :=
  {| fetchFee := fun _ _ => Fulfilled (Some bcann);
     getPaymentAccount := fun _ => Fulfilled account |}.

(** The options [initPaymentMethod] of the first revision offers. *)
Definition bothPaymentMethods (accountNum : string) : list PaymentOption :=
  [ {| label := "Credit Card"; value := DIRECT_PAY |};
    {| label := "PAD Account " ++ accountNum; value := PAD |} ].

(** [response.cfsAccount?.bankAccountNumber ?? ''] *)
Definition accountNumOf (account : ConnectPayAccount) : string :=
  match cfsAccount account with
  | Some cfs =>
      match bankAccountNumber cfs with
      | Some n => n
      | None => ""
      end
  | None => ""
  end.

(** A remote that answers the annual report fee with total 30. *)
Definition dearerRemote : Remote :=
  {| fetchFee := fun _ _ =>
       Fulfilled (Some {| filingType := Val "ANNUAL_REPORT";
                          filingTypeCode := Val "BCANN";
                          total := Val 30%Z; filingFees := Val 30%Z |});
     getPaymentAccount := fun _ => Rejected (FetchError "offline") |}.

(** The new store with the annual report fee of benefit companies cached. *)
Definition bcannCached : State :=
  set_feeInfo [(feeData "BC" "BCANN", bcann)] initialState.

(** ** Basic facts *)

Lemma PaymentMethod_eqb_eq a b : PaymentMethod_eqb a b = true <-> a = b.
Proof. destruct a, b; simpl; split; congruence. Qed.

Lemma strict_eq_true x y : strict_eq x y = true <-> x = y.
Proof.
  destruct x as [| |a], y as [| |b]; simpl; split; try congruence.
  - intros H. apply String.eqb_eq in H. now subst.
  - intros H. injection H as ->. apply String.eqb_refl.
Qed.

Lemma keyEq_true x f : keyEq x f = true <-> key f = keyOf x.
Proof.
  unfold keyEq, key, keyOf. rewrite andb_true_iff, !strict_eq_true.
  split; [intros [-> ->]; reflexivity | intros H; injection H; auto].
Qed.

Lemma js_findIndex_pure {A} (p : A -> bool) (l : list A) :
  js_findIndex (fun a => Ok (p a)) l = Ok (index_of p l).
Proof.
  induction l as [|x rest IH]; simpl; [reflexivity|].
  destruct (p x); [reflexivity|]. rewrite IH.
  destruct (index_of p rest); reflexivity.
Qed.

Lemma findIndex_sameFiling x l :
  js_findIndex (Rev1.sameFiling (Some x)) l = Ok (index_of (keyEq x) l).
Proof. apply (js_findIndex_pure (keyEq x)). Qed.

Lemma index_of_Some {A} (p : A -> bool) l i :
  index_of p l = Some i ->
  exists a, nth_error l i = Some a /\ p a = true.
Proof.
  revert i. induction l as [|x rest IH]; simpl; intros i H; [discriminate|].
  destruct (p x) eqn:E.
  - injection H as <-. exists x. auto.
  - destruct (index_of p rest) as [j|]; simpl in H; [|discriminate].
    injection H as <-. apply (IH j eq_refl).
Qed.

Lemma index_of_None {A} (p : A -> bool) l :
  index_of p l = None <-> (forall a, In a l -> p a = false).
Proof.
  induction l as [|x rest IH]; simpl.
  - split; [intros _ a []|reflexivity].
  - destruct (p x) eqn:E.
    + split; [discriminate|]. intros H. rewrite (H x) in E by auto. discriminate.
    + destruct (index_of p rest) as [j|]; simpl.
      * split; [discriminate|]. intros H.
        assert (Some j = None) by (apply IH; auto). discriminate.
      * split; [|reflexivity]. intros _ a [<-|Ha]; [assumption|].
        apply IH; auto.
Qed.






Lemma map_update_at {A B} (k : A -> B) (g : A -> A) i l :
  (forall a, k (g a) = k a) -> map k (update_at i g l) = map k l.
Proof.
  intros Hk. revert i. induction l as [|x rest IH]; intros [|j]; simpl; auto.
  - now rewrite Hk.
  - now rewrite IH.
Qed.

Lemma Forall_update_at {A} (P : A -> Prop) (g : A -> A) i l :
  Forall P l ->
  (forall a, nth_error l i = Some a -> P a -> P (g a)) ->
  Forall P (update_at i g l).
Proof.
  intros HP. revert i. induction HP as [|x rest Hx Hrest IH];
    intros [|j] Hg; simpl; constructor; auto.
Qed.


Lemma splice1_incl {A} i (l : list A) a : In a (splice1 i l) -> In a l.
Proof.
  unfold splice1. intros H. apply in_app_or in H as [H|H].
  - rewrite <- (firstn_skipn i l). apply in_or_app. now left.
  - rewrite <- (firstn_skipn (S i) l). apply in_or_app. now right.
Qed.

Lemma NoDup_map_splice1 {A B} (k : A -> B) i (l : list A) :
  NoDup (map k l) -> NoDup (map k (splice1 i l)).
Proof.
  unfold splice1. intros H.
  rewrite <- (firstn_skipn i l) in H.
  rewrite map_app in *.
  destruct (skipn i l) as [|x rest] eqn:E.
  - rewrite skipn_all2.
    + simpl. rewrite app_nil_r in *. exact H.
    + assert (List.length (skipn i l) = 0) by now rewrite E.
      rewrite length_skipn in *. lia.
  - replace (skipn (S i) l) with rest.
    + simpl in H. apply NoDup_remove_1 in H. exact H.
    + change (S i) with (1 + i). rewrite <- skipn_skipn, E. reflexivity.
Qed.

(** ** The watcher touches the selected method and the alerts only *)

Lemma watchCallback_frame w :
  sameLedger w (Rev1.watchCallback w) /\ sameAccount w (Rev1.watchCallback w).
Proof.
  unfold Rev1.watchCallback, sameLedger, sameAccount.
  destruct (Rev1.cfsStatus (userPaymentAccount w)) as [s|]; [|tauto].
  destruct (Rev1.includes _ _); simpl; tauto.
Qed.

Lemma flushJobs_frame w :
  sameLedger w (Rev1.flushJobs w) /\ sameAccount w (Rev1.flushJobs w).
Proof.
  funelim (Rev1.flushJobs w).
  - unfold sameLedger, sameAccount. tauto.
  - destruct (watchCallback_frame (set_watchSeen (userSelectedPaymentMethod w) w))
      as [(a1 & a2 & a3 & a4 & a5) (b1 & b2 & b3)].
    destruct H as [(c1 & c2 & c3 & c4 & c5) (d1 & d2 & d3)].
    unfold sameLedger, sameAccount.
    rewrite c1, c2, c3, c4, c5, d1, d2, d3, a1, a2, a3, a4, a5, b1, b2, b3.
    simpl. tauto.
Qed.

Lemma flushJobs_fees w : fees (Rev1.flushJobs w) = fees w.
Proof. apply flushJobs_frame. Qed.

Lemma flushJobs_quiet w :
  userSelectedPaymentMethod w = watchSeen w -> Rev1.flushJobs w = w.
Proof.
  intros H. funelim (Rev1.flushJobs w); [reflexivity|].
  exfalso.
  assert (PaymentMethod_eqb (userSelectedPaymentMethod w) (watchSeen w) = true)
    by now apply PaymentMethod_eqb_eq.
  congruence.
Qed.

(** ** The ledger invariant *)

Lemma addFee_ok x w : ledger_ok (fees w) -> ledger_ok (fees (snd (Rev1.addFee x w))).
Proof.
  intros [Hnd Hq]. unfold Rev1.addFee, js_find.
  destruct x as [x|].
  - rewrite findIndex_sameFiling.
    destruct (index_of (keyEq x) (fees w)) as [i|] eqn:E; simpl.
    + split.
      * rewrite map_update_at; [exact Hnd|]. intros a. now destruct (quantity a).
      * apply Forall_update_at; [exact Hq|]. intros a _ (q & Ha & Hge).
        rewrite Ha. exists (q + 1)%Z. simpl. split; [reflexivity|lia].
    + destruct (nullish (total x) || nullish (filingFees x) || nullish (filingTypeCode x));
        simpl; [now split|].
      split.
      * rewrite map_app. simpl.
        apply NoDup_rev in Hnd. rewrite <- (rev_involutive (_ ++ _)).
        apply NoDup_rev. rewrite rev_app_distr. simpl. constructor; [|exact Hnd].
        rewrite <- in_rev, in_map_iff. intros (f & Hk & Hin).
        assert (keyEq x f = false) as Hf by (eapply index_of_None; eauto).
        assert (keyEq x f = true) as Ht by now apply keyEq_true.
        congruence.
      * apply Forall_app. split; [exact Hq|]. constructor; [|constructor].
        exists 1%Z. simpl. split; [reflexivity|lia].
  - destruct (fees w) as [|f rest] eqn:E; simpl; rewrite ?E; now split.
Qed.

Lemma removeFee_ok x w : ledger_ok (fees w) -> ledger_ok (fees (snd (Rev1.removeFee x w))).
Proof.
  intros [Hnd Hq]. unfold Rev1.removeFee, js_find.
  destruct x as [x|].
  - rewrite findIndex_sameFiling.
    destruct (index_of (keyEq x) (fees w)) as [i|] eqn:E.
    + destruct (nth_error (fees w) i) as [f|] eqn:Ef.
      * destruct (quantity f) as [n|] eqn:En.
        -- destruct (negb (n =? 0)%Z && (1 <? n)%Z) eqn:Hn; simpl.
           ++ split.
              ** rewrite map_update_at; [exact Hnd|]. reflexivity.
              ** apply Forall_update_at; [exact Hq|]. intros a Ha _.
                 assert (a = f) as -> by congruence.
                 exists (n - 1)%Z. simpl. rewrite En. simpl.
                 apply andb_true_iff in Hn as [_ Hn]. apply Z.ltb_lt in Hn.
                 split; [reflexivity|lia].
           ++ split; [now apply NoDup_map_splice1|].
              apply Forall_forall. intros a Ha. apply splice1_incl in Ha.
              eapply Forall_forall in Hq; eauto.
        -- simpl. split; [now apply NoDup_map_splice1|].
           apply Forall_forall. intros a Ha. apply splice1_incl in Ha.
           eapply Forall_forall in Hq; eauto.
      * simpl. split; [now apply NoDup_map_splice1|].
        apply Forall_forall. intros a Ha. apply splice1_incl in Ha.
        eapply Forall_forall in Hq; eauto.
    + simpl. now split.
  - destruct (fees w) as [|f rest] eqn:E; simpl; rewrite ?E; now split.
Qed.

Lemma perform_ok c w :
  ledger_ok (fees w) ->
  ledger_ok (fees (snd (call Rev1.flushJobs (perform c) w))).
Proof.
  intros H. unfold call.
  assert (ledger_ok (fees (snd (perform c w)))) as Hc
    by (destruct c; simpl; [now apply addFee_ok | now apply removeFee_ok]).
  destruct (perform c w) as [r w']. simpl in *. now rewrite flushJobs_fees.
Qed.

(** C1.  Whatever sequence of [addFee] and [removeFee] calls is made on a
    store whose ledger is empty, the ledger then holds no two entries with
    the same (filingType, filingTypeCode) key, and every entry in it has a
    quantity that is at least 1. *)
Theorem ledger_invariant (cs : list LedgerCall) (w : State) :
  fees w = [] ->
  NoDup (map key (fees (afterCalls cs w)))
  /\ Forall quantity_ok (fees (afterCalls cs w)).
Proof.
  intros Hempty.
  assert (ledger_ok (fees w)) as H.
  { rewrite Hempty. split; constructor. }
  clear Hempty. revert w H. unfold afterCalls.
  induction cs as [|c cs IH]; intros w H; simpl; [exact H|].
  apply IH. now apply perform_ok.
Qed.

(** ** The scenarios of the annual report fee *)

Example add_twice_gives_quantity_2 :
  fees (afterCalls [CallAddFee (Some bcann); CallAddFee (Some bcann)] initialState)
  = [ {| info := bcann; quantity := Some 2%Z; uiUuid := 0 |} ].
Proof. reflexivity. Qed.

Example remove_once_then_again :
  fees (afterCalls [CallAddFee (Some bcann); CallAddFee (Some bcann);
                    CallRemoveFee (Some bcann)] initialState)
  = [ {| info := bcann; quantity := Some 1%Z; uiUuid := 0 |} ]
  /\ fees (afterCalls [CallAddFee (Some bcann); CallAddFee (Some bcann);
                       CallRemoveFee (Some bcann); CallRemoveFee (Some bcann)]
             initialState) = [].
Proof. split; reflexivity. Qed.

Example add_null_total_to_new_store :
  Rev1.addFee (Some bcannNullTotal) initialState
  = (Ok tt, console_error invalidFeeLine initialState).
Proof. reflexivity. Qed.

Lemma ledger_invariant_witness :
  fees initialState = []
  /\ NoDup (map key (fees (afterCalls
       [CallAddFee (Some bcann); CallAddFee (Some bcannNullTotal);
        CallRemoveFee (Some bcann); CallAddFee None] initialState)))
  /\ Forall quantity_ok (fees (afterCalls
       [CallAddFee (Some bcann); CallAddFee (Some bcannNullTotal);
        CallRemoveFee (Some bcann); CallAddFee None] initialState)).
Proof.
  split; [reflexivity|].
  apply (ledger_invariant
           [CallAddFee (Some bcann); CallAddFee (Some bcannNullTotal);
            CallRemoveFee (Some bcann); CallAddFee None] initialState).
  reflexivity.
Defined.

(** ** Malformed fee items *)

(** C2, as stated, fails: [addFee] looks for an entry with the item's key
    before it validates the item.  On the ledger that holds the annual
    report fee once, the item with [total: null] and the same key raises the
    quantity of that entry to 2 and logs nothing. *)
Lemma addFee_malformed_existing_key :
  malformed bcannNullTotal = true
  /\ fees oneBcann = [ {| info := bcann; quantity := Some 1%Z; uiUuid := 0 |} ]
  /\ fees (snd (Rev1.addFee (Some bcannNullTotal) oneBcann))
     = [ {| info := bcann; quantity := Some 2%Z; uiUuid := 0 |} ]
  /\ console (snd (Rev1.addFee (Some bcannNullTotal) oneBcann)) = console oneBcann
  /\ ~ (exists line, Rev1.addFee (Some bcannNullTotal) oneBcann
                     = (Ok tt, console_error line oneBcann)).
Proof.
  repeat split.
  intros [line H]. apply (f_equal (fun r => fees (snd r))) in H.
  vm_compute in H. discriminate H.
Qed.

(** C2, amended.  For a fee item whose total, filingFees or filingTypeCode
    is null or absent, and a ledger that holds no entry with the item's
    key, [addFee] returns normally, logs the diagnostic and changes nothing
    else: the state is the old one with one more console line. *)
Theorem addFee_malformed_noop (x : FeeInfo) (w : State) :
  malformed x = true ->
  (forall f, In f (fees w) -> key f <> keyOf x) ->
  Rev1.addFee (Some x) w = (Ok tt, console_error invalidFeeLine w).
Proof.
  intros Hbad Hfresh. unfold Rev1.addFee, js_find.
  rewrite findIndex_sameFiling.
  assert (index_of (keyEq x) (fees w) = None) as ->.
  { apply index_of_None. intros f Hf.
    destruct (keyEq x f) eqn:E; [|reflexivity].
    apply keyEq_true in E. now apply Hfresh in Hf. }
  unfold malformed in Hbad. now rewrite Hbad.
Qed.

Lemma addFee_malformed_noop_witness :
  malformed bcannNullTotal = true
  /\ Rev1.addFee (Some bcannNullTotal) initialState
     = (Ok tt, console_error invalidFeeLine initialState).
Proof.
  split; [reflexivity|].
  apply (addFee_malformed_noop bcannNullTotal initialState).
  - reflexivity.
  - simpl. intros f [].
Defined.

(** ** [addFee] followed by [removeFee] *)


Lemma set_fees_same w : set_fees (fees w) w = w.
Proof. now destruct w. Qed.




(** ** The fee cache *)

Lemma getFeeInfo_body d t w :
  Rev1.getFeeInfo d t w
  = match find (Rev1.sameFilingData d) (feeInfo w) with
    | Some feeInfoItem => Done (Ok (Some (snd feeInfoItem))) w
    | None =>
        if t then
          andThen (Rev1.loadFeeTypesAndCharges (folioNumber w) [d] w)
            (fun _ w => Rev1.getFeeInfo d false w)
        else Done (Ok None) w
    end.
Proof.
  rewrite Rev1.getFeeInfo_equation_1.
  destruct (find (Rev1.sameFilingData d) (feeInfo w)); [reflexivity|].
  destruct t; reflexivity.
Qed.

Lemma sameFilingData_true d e :
  Rev1.sameFilingData d e = true
  <-> entityType (fst e) = entityType d
      /\ dataFilingTypeCode (fst e) = dataFilingTypeCode d.
Proof.
  unfold Rev1.sameFilingData. now rewrite andb_true_iff, !String.eqb_eq.
Qed.

Lemma find_cachedKey d w :
  cachedKey d w
  <-> exists e, find (Rev1.sameFilingData d) (feeInfo w) = Some e.
Proof.
  split.
  - intros (e & Hin & Hk).
    destruct (find (Rev1.sameFilingData d) (feeInfo w)) as [e'|] eqn:E;
      [now exists e'|].
    apply (find_none _ _ E) in Hin.
    apply sameFilingData_true in Hk. congruence.
  - intros (e & He). apply find_some in He as [Hin Hk].
    exists e. split; [exact Hin|]. now apply sameFilingData_true.
Qed.

Lemma find_snoc {A} (p : A -> bool) l a :
  find p l = None -> find p (l ++ [a]) = if p a then Some a else None.
Proof.
  induction l as [|x rest IH]; simpl; [reflexivity|].
  destruct (p x); [discriminate|exact IH].
Qed.

Lemma getFeeInfo_false d w :
  exists r, Rev1.getFeeInfo d false w = Done (Ok r) w.
Proof.
  rewrite getFeeInfo_body.
  destruct (find (Rev1.sameFilingData d) (feeInfo w)); eauto.
Qed.

Lemma flushJobs_feeInfo w : feeInfo (Rev1.flushJobs w) = feeInfo w.
Proof. apply flushJobs_frame. Qed.

(** What a run of [getFeeInfo] does when the key is not cached and loading
    is allowed: one remote call, then the answer of the second lookup. *)
Lemma getFeeInfo_load d w remote n :
  find (Rev1.sameFilingData d) (feeInfo w) = None ->
  calls (exec remote n (Rev1.getFeeInfo d true w)) = [FetchFee d]
  /\ match fetchFee remote n d with
     | Rejected e =>
         result (exec remote n (Rev1.getFeeInfo d true w)) = Threw e
         /\ feeInfo (final (exec remote n (Rev1.getFeeInfo d true w))) = feeInfo w
     | Fulfilled None =>
         result (exec remote n (Rev1.getFeeInfo d true w)) = Ok None
         /\ feeInfo (final (exec remote n (Rev1.getFeeInfo d true w))) = feeInfo w
     | Fulfilled (Some fee) =>
         result (exec remote n (Rev1.getFeeInfo d true w)) = Ok (Some fee)
         /\ feeInfo (final (exec remote n (Rev1.getFeeInfo d true w)))
            = (feeInfo w ++ [(d, fee)])%list
     end.
Proof.
  intros Hnone. rewrite getFeeInfo_body, Hnone.
  unfold exec, Rev1.loadFeeTypesAndCharges. cbn [Rev1.fetchEach andThen run calls result final].
  set (w0 := Rev1.flushJobs (set_folioNumber (folioNumber w) w)).
  assert (feeInfo w0 = feeInfo w) as Hw0 by (unfold w0; now rewrite flushJobs_feeInfo).
  destruct (fetchFee remote n d) as [[fee|]|e]; cbn [Rev1.fetchEach andThen].
  - rewrite getFeeInfo_body. cbn [feeInfo set_feeInfo]. rewrite Hw0.
    rewrite (find_snoc _ _ _ Hnone).
    replace (Rev1.sameFilingData d (d, fee)) with true
      by (symmetry; now apply sameFilingData_true).
    cbn [run calls result final snd]. rewrite flushJobs_feeInfo. auto.
  - rewrite getFeeInfo_body, Hw0, Hnone.
    cbn [run calls result final]. rewrite flushJobs_feeInfo. auto.
  - cbn [run calls result final]. rewrite flushJobs_feeInfo. auto.
Qed.

(** C5.  When the cache holds an entry for the key of the descriptor,
    [getFeeInfo] with loading allowed is done at once with the fee info of
    such an entry: it makes no remote call and leaves the state as it is, so
    the same holds for every later call.  When the cache holds none, that
    call makes exactly one remote call, the fetch for the descriptor, and
    the retry with loading disallowed answers without any call. *)
Theorem getFeeInfo_cached_or_one_load (d : FeeData) (w : State)
    (remote : Remote) (n : nat) :
  (cachedKey d w ->
   exists e, In e (feeInfo w)
     /\ entityType (fst e) = entityType d
     /\ dataFilingTypeCode (fst e) = dataFilingTypeCode d
     /\ Rev1.getFeeInfo d true w = Done (Ok (Some (snd e))) w
     /\ calls (exec remote n (Rev1.getFeeInfo d true w)) = []
     /\ cachedKey d (final (exec remote n (Rev1.getFeeInfo d true w))))
  /\ (~ cachedKey d w ->
      calls (exec remote n (Rev1.getFeeInfo d true w)) = [FetchFee d]
      /\ Rev1.getFeeInfo d false w = Done (Ok None) w
      /\ calls (exec remote n (Rev1.getFeeInfo d false w)) = []).
Proof.
  split.
  - intros Hc. pose proof Hc as Hc'. apply find_cachedKey in Hc as [e He].
    exists e. pose proof (find_some _ _ He) as [Hin Hk].
    apply sameFilingData_true in Hk as [Hk1 Hk2].
    rewrite getFeeInfo_body, He. repeat split; auto.
    unfold exec. cbn [run final].
    destruct Hc' as (e' & Hin' & Hk'). exists e'.
    now rewrite flushJobs_feeInfo.
  - intros Hn.
    assert (find (Rev1.sameFilingData d) (feeInfo w) = None) as Hnone.
    { destruct (find (Rev1.sameFilingData d) (feeInfo w)) as [e|] eqn:E;
        [|reflexivity].
      exfalso. apply Hn. apply find_cachedKey. now exists e. }
    split; [apply (getFeeInfo_load d w remote n Hnone)|].
    rewrite getFeeInfo_body, Hnone. split; reflexivity.
Qed.

Lemma getFeeInfo_cached_or_one_load_witness :
  calls (exec bcannRemote 0 (Rev1.getFeeInfo (feeData "BC" "BCANN") true initialState))
  = [FetchFee (feeData "BC" "BCANN")]
  /\ calls (exec bcannRemote 1
       (Rev1.getFeeInfo (feeData "BC" "BCANN") true
          (final (exec bcannRemote 0
             (Rev1.getFeeInfo (feeData "BC" "BCANN") true initialState))))) = [].
Proof.
  split.
  - apply (getFeeInfo_cached_or_one_load (feeData "BC" "BCANN") initialState bcannRemote 0).
    intros (e & Hin & _). exact Hin.
  - destruct (proj1 (getFeeInfo_cached_or_one_load (feeData "BC" "BCANN")
               (final (exec bcannRemote 0
                  (Rev1.getFeeInfo (feeData "BC" "BCANN") true initialState)))
               bcannRemote 1)) as (e & _ & _ & _ & _ & H & _).
    + exists (feeData "BC" "BCANN", bcann). split; [|split; reflexivity].
      left. reflexivity.
    + exact H.
Defined.

(** ** Loading a batch *)

Lemma flushJobs_folioNumber w : folioNumber (Rev1.flushJobs w) = folioNumber w.
Proof. apply flushJobs_frame. Qed.

Lemma fetchEach_fulfilled remote ds : forall n w,
  allFulfilled remote n ds = true ->
  result (exec remote n (Rev1.fetchEach ds w)) = Ok tt
  /\ calls (exec remote n (Rev1.fetchEach ds w)) = map FetchFee ds
  /\ feeInfo (final (exec remote n (Rev1.fetchEach ds w)))
     = (feeInfo w ++ found remote n ds)%list
  /\ folioNumber (final (exec remote n (Rev1.fetchEach ds w))) = folioNumber w.
Proof.
  unfold exec.
  induction ds as [|d rest IH]; intros n w Hall;
    cbn [Rev1.fetchEach run result calls final map found].
  - rewrite flushJobs_feeInfo, flushJobs_folioNumber, app_nil_r. auto.
  - cbn [allFulfilled] in Hall.
    destruct (fetchFee remote n d) as [[fee|]|e]; [| |discriminate Hall].
    + destruct (IH (S n)
                  (set_feeInfo (feeInfo (Rev1.flushJobs w) ++ [(d, fee)])
                     (Rev1.flushJobs w)) Hall) as (h1 & h2 & h3 & h4).
      rewrite h1, h2, h3, h4. cbn [feeInfo folioNumber set_feeInfo].
      rewrite flushJobs_feeInfo, flushJobs_folioNumber, <- app_assoc. auto.
    + destruct (IH (S n) (Rev1.flushJobs w) Hall) as (h1 & h2 & h3 & h4).
      rewrite h1, h2, h3, h4, flushJobs_feeInfo, flushJobs_folioNumber. auto.
Qed.

Lemma fetchEach_rejected remote before d after e : forall n w,
  allFulfilled remote n before = true ->
  fetchFee remote (n + List.length before) d = Rejected e ->
  result (exec remote n (Rev1.fetchEach (before ++ d :: after) w)) = Threw e
  /\ calls (exec remote n (Rev1.fetchEach (before ++ d :: after) w))
     = map FetchFee (before ++ [d])
  /\ feeInfo (final (exec remote n (Rev1.fetchEach (before ++ d :: after) w)))
     = (feeInfo w ++ found remote n before)%list
  /\ folioNumber (final (exec remote n (Rev1.fetchEach (before ++ d :: after) w)))
     = folioNumber w.
Proof.
  unfold exec.
  induction before as [|b rest IH]; intros n w Hall Hrej;
    cbn [app Rev1.fetchEach run result calls final map found List.length].
  - cbn [List.length] in Hrej. rewrite Nat.add_0_r in Hrej. rewrite Hrej.
    cbn [run result calls final].
    rewrite !flushJobs_feeInfo, !flushJobs_folioNumber, app_nil_r. auto.
  - cbn [allFulfilled] in Hall. cbn [List.length] in Hrej.
    rewrite Nat.add_succ_r in Hrej.
    destruct (fetchFee remote n b) as [[fee|]|e']; [| |discriminate Hall].
    + destruct (IH (S n)
                  (set_feeInfo (feeInfo (Rev1.flushJobs w) ++ [(b, fee)])
                     (Rev1.flushJobs w)) Hall Hrej) as (h1 & h2 & h3 & h4).
      rewrite h1, h2, h3, h4. cbn [feeInfo folioNumber set_feeInfo].
      rewrite flushJobs_feeInfo, flushJobs_folioNumber, <- app_assoc. auto.
    + destruct (IH (S n) (Rev1.flushJobs w) Hall Hrej) as (h1 & h2 & h3 & h4).
      rewrite h1, h2, h3, h4, flushJobs_feeInfo, flushJobs_folioNumber. auto.
Qed.

(** C6, as stated, fails when a lookup is rejected: the loop has no handler
    around the awaited call, so the rejection ends the batch.  With a first
    call that fails, the second descriptor is never looked up, although its
    call would have produced a fee, and the function throws. *)
Lemma loadFeeTypesAndCharges_rejection_ends_batch :
  result (exec flakyRemote 0
            (Rev1.loadFeeTypesAndCharges "F1"
               [feeData "BC" "BCANN"; feeData "C" "BCANN"] initialState))
  = Threw (FetchError "503")
  /\ calls (exec flakyRemote 0
              (Rev1.loadFeeTypesAndCharges "F1"
                 [feeData "BC" "BCANN"; feeData "C" "BCANN"] initialState))
     = [FetchFee (feeData "BC" "BCANN")]
  /\ feeInfo (final (exec flakyRemote 0
              (Rev1.loadFeeTypesAndCharges "F1"
                 [feeData "BC" "BCANN"; feeData "C" "BCANN"] initialState)))
     = []
  /\ found flakyRemote 0 [feeData "BC" "BCANN"; feeData "C" "BCANN"]
     = [(feeData "C" "BCANN", bcann)]
  /\ calls (exec flakyRemote 0
              (Rev1.loadFeeTypesAndCharges "F1"
                 [feeData "BC" "BCANN"; feeData "C" "BCANN"] initialState))
     <> map FetchFee [feeData "BC" "BCANN"; feeData "C" "BCANN"]
  /\ feeInfo (final (exec flakyRemote 0
              (Rev1.loadFeeTypesAndCharges "F1"
                 [feeData "BC" "BCANN"; feeData "C" "BCANN"] initialState)))
     <> (feeInfo initialState
         ++ found flakyRemote 0 [feeData "BC" "BCANN"; feeData "C" "BCANN"])%list.
Proof. repeat split; discriminate. Qed.

(** C6, amended.  [loadFeeTypesAndCharges] records the folio number and
    makes its remote calls one after the other in list order.  A call
    fulfilled with [undefined] adds nothing to the cache and the loop goes
    on; when every call of the batch is fulfilled, every descriptor is
    looked up and the cache grows by the pairs of the calls that produced a
    fee, in list order.  When a call is rejected, the calls made are those
    up to and including that one, the cache has grown by the pairs found
    before it, and the function throws the rejection. *)
Theorem loadFeeTypesAndCharges_batch (remote : Remote) (n : nat)
    (newFolioNumber : string) (ds : list FeeData) (w : State) :
  (allFulfilled remote n ds = true ->
   result (exec remote n (Rev1.loadFeeTypesAndCharges newFolioNumber ds w)) = Ok tt
   /\ calls (exec remote n (Rev1.loadFeeTypesAndCharges newFolioNumber ds w))
      = map FetchFee ds
   /\ feeInfo (final (exec remote n (Rev1.loadFeeTypesAndCharges newFolioNumber ds w)))
      = (feeInfo w ++ found remote n ds)%list
   /\ folioNumber (final (exec remote n (Rev1.loadFeeTypesAndCharges newFolioNumber ds w)))
      = newFolioNumber)
  /\ (forall before d after e,
      ds = (before ++ d :: after)%list ->
      allFulfilled remote n before = true ->
      fetchFee remote (n + List.length before) d = Rejected e ->
      result (exec remote n (Rev1.loadFeeTypesAndCharges newFolioNumber ds w)) = Threw e
      /\ calls (exec remote n (Rev1.loadFeeTypesAndCharges newFolioNumber ds w))
         = map FetchFee (before ++ [d])
      /\ feeInfo (final (exec remote n (Rev1.loadFeeTypesAndCharges newFolioNumber ds w)))
         = (feeInfo w ++ found remote n before)%list
      /\ folioNumber (final (exec remote n (Rev1.loadFeeTypesAndCharges newFolioNumber ds w)))
         = newFolioNumber).
Proof.
  unfold Rev1.loadFeeTypesAndCharges. split.
  - intros Hall.
    apply (fetchEach_fulfilled remote ds n (set_folioNumber newFolioNumber w) Hall).
  - intros before d after e -> Hall Hrej.
    apply (fetchEach_rejected remote before d after e n
             (set_folioNumber newFolioNumber w) Hall Hrej).
Qed.

Lemma loadFeeTypesAndCharges_batch_witness :
  allFulfilled bcannRemote 0
    [feeData "BC" "BCANN"; feeData "BC" "OTANN"; feeData "C" "BCANN"] = true
  /\ feeInfo (final (exec bcannRemote 0
       (Rev1.loadFeeTypesAndCharges "F1"
          [feeData "BC" "BCANN"; feeData "BC" "OTANN"; feeData "C" "BCANN"]
          initialState)))
     = [(feeData "BC" "BCANN", bcann); (feeData "C" "BCANN", bcann)]
  /\ result (exec flakyRemote 0
       (Rev1.loadFeeTypesAndCharges "F1"
          [feeData "BC" "BCANN"; feeData "C" "BCANN"] initialState))
     = Threw (FetchError "503").
Proof.
  split; [reflexivity|]. split.
  - apply (proj1 (loadFeeTypesAndCharges_batch bcannRemote 0 "F1"
             [feeData "BC" "BCANN"; feeData "BC" "OTANN"; feeData "C" "BCANN"]
             initialState)).
    reflexivity.
  - apply (proj2 (loadFeeTypesAndCharges_batch flakyRemote 0 "F1"
             [feeData "BC" "BCANN"; feeData "C" "BCANN"] initialState)
             [] (feeData "BC" "BCANN") [feeData "C" "BCANN"] (FetchError "503"));
      reflexivity.
Defined.

(** ** The watcher of the selected payment method *)

Lemma flushJobs_body w :
  Rev1.flushJobs w
  = if PaymentMethod_eqb (userSelectedPaymentMethod w) (watchSeen w) then w
    else Rev1.flushJobs
           (Rev1.watchCallback (set_watchSeen (userSelectedPaymentMethod w) w)).
Proof.
  funelim (Rev1.flushJobs w);
    match goal with
    | e : PaymentMethod_eqb _ _ = _ |- _ => rewrite e
    end; congruence.
Qed.

(** The watcher job never runs more than twice in a flush, and when the
    flush is over the ref and the value seen last agree. *)
Lemma flushJobs_settles w :
  userSelectedPaymentMethod (Rev1.flushJobs w) = watchSeen (Rev1.flushJobs w).
Proof.
  funelim (Rev1.flushJobs w); [|assumption].
  now apply PaymentMethod_eqb_eq.
Qed.

(** What the flush does after the selection was changed to PAD on a store
    whose account snapshot is in a pending PAD state. *)
Lemma select_PAD_while_pending w :
  Rev1.includes Rev1.PAD_PENDING_STATES (Rev1.cfsStatus (userPaymentAccount w)) = true ->
  userSelectedPaymentMethod w = DIRECT_PAY ->
  watchSeen w = DIRECT_PAY ->
  snd (call Rev1.flushJobs (selectPaymentMethod PAD) w)
  = set_alerts (alerts w ++ [paymentMethodAlert; paymentMethodAlert]) w.
Proof.
  intros Hpending Hsel Hseen. unfold call, selectPaymentMethod. cbn [snd].
  assert (exists s, Rev1.cfsStatus (userPaymentAccount w) = Some s) as [s Hs].
  { destruct (Rev1.cfsStatus (userPaymentAccount w)) as [s|]; [eauto|discriminate]. }
  rewrite flushJobs_body. cbn [userSelectedPaymentMethod watchSeen set_userSelectedPaymentMethod].
  rewrite Hseen. cbn [PaymentMethod_eqb].
  unfold Rev1.watchCallback at 1.
  cbn [userPaymentAccount set_watchSeen set_userSelectedPaymentMethod].
  rewrite Hs, <- Hs, Hpending.
  rewrite flushJobs_body. cbn. unfold Rev1.watchCallback at 1. cbn.
  rewrite Hs, <- Hs, Hpending.
  rewrite flushJobs_body. cbn.
  destruct w; cbn in *. subst.
  cbv -[app]. now rewrite <- app_assoc.
Qed.

(** C3, at the store that holds a pending account snapshot: the caller
    selects PAD; the watcher reverts the selection to DIRECT_PAY, and its
    callback runs a second time for its own assignment, so two alerts of
    category PAYMENT_METHOD are recorded, not one.  The second run changes
    nothing and the flush ends there. *)
Theorem pending_selection_alerts_twice :
  userSelectedPaymentMethod
    (snd (call Rev1.flushJobs (selectPaymentMethod PAD) pendingStore)) = DIRECT_PAY
  /\ alerts (snd (call Rev1.flushJobs (selectPaymentMethod PAD) pendingStore))
     = [paymentMethodAlert; paymentMethodAlert]
  /\ alerts pendingStore = []
  /\ snd (call Rev2.flushJobs (selectPaymentMethod PAD) pendingStore)
     = snd (call Rev1.flushJobs (selectPaymentMethod PAD) pendingStore).
Proof.
  rewrite (select_PAD_while_pending pendingStore) by reflexivity.
  repeat split.
Qed.

(** ** Initialising the payment method *)

Lemma set_watchSeen_same w : set_watchSeen (watchSeen w) w = w.
Proof. now destruct w. Qed.

(** With no status in the account snapshot the callback does nothing, and
    the flush only records the value the watcher has seen. *)
Lemma flushJobs_no_status w :
  Rev1.cfsStatus (userPaymentAccount w) = None ->
  Rev1.flushJobs w = set_watchSeen (userSelectedPaymentMethod w) w.
Proof.
  intros Hs. rewrite flushJobs_body.
  destruct (PaymentMethod_eqb (userSelectedPaymentMethod w) (watchSeen w)) eqn:E.
  - apply PaymentMethod_eqb_eq in E. rewrite E. symmetry. apply set_watchSeen_same.
  - unfold Rev1.watchCallback. cbn [userPaymentAccount set_watchSeen]. rewrite Hs.
    apply flushJobs_quiet. reflexivity.
Qed.

(** C7.  When the payment account request of [initPaymentMethod] is
    rejected, the function returns normally after its one remote call; one
    alert of category PAYMENT_METHOD has been added;
    [allowAlternatePaymentMethod] is false, and the seven refs of the store
    are exactly as [resetPaymentOptions] left them: the account snapshot is
    the empty object. *)
Theorem initPaymentMethod_failure (remote : Remote) (n : nat) (w : State)
    (e : JsError) :
  getPaymentAccount remote n = Rejected e ->
  result (exec remote n (Rev1.initPaymentMethod w)) = Ok tt
  /\ calls (exec remote n (Rev1.initPaymentMethod w)) = [GetPaymentAccount]
  /\ alerts (final (exec remote n (Rev1.initPaymentMethod w)))
     = (alerts w ++ [paymentMethodAlert])%list
  /\ allowAlternatePaymentMethod (final (exec remote n (Rev1.initPaymentMethod w)))
     = false
  /\ userPaymentAccount (final (exec remote n (Rev1.initPaymentMethod w)))
     = emptyAccount
  /\ sameStore (snd (Rev1.resetPaymentOptions w))
       (final (exec remote n (Rev1.initPaymentMethod w))).
Proof.
  intros Hrej. unfold exec, Rev1.initPaymentMethod.
  cbn [tryCatch run result calls final]. rewrite Hrej. cbn [tryCatch run result calls final].
  rewrite (flushJobs_no_status (snd (Rev1.resetPaymentOptions w))) by reflexivity.
  rewrite flushJobs_quiet by reflexivity.
  unfold sameStore. cbn. repeat split.
Qed.

Lemma initPaymentMethod_failure_witness :
  getPaymentAccount flakyRemote 0 = Rejected (FetchError "503")
  /\ alerts (final (exec flakyRemote 0 (Rev1.initPaymentMethod pendingStore)))
     = [paymentMethodAlert]
  /\ allowAlternatePaymentMethod
       (final (exec flakyRemote 0 (Rev1.initPaymentMethod pendingStore))) = false.
Proof.
  split; [reflexivity|].
  destruct (initPaymentMethod_failure flakyRemote 0 pendingStore
              (FetchError "503") eq_refl) as (_ & _ & Ha & Hb & _).
  split; [exact Ha | exact Hb].
Defined.

(** ** Resetting *)

(** C8, as stated, fails for the second revision: its
    [resetPaymentOptions] selects DIRECT_PAY, not PAD. *)
Lemma resetPaymentOptions_second_revision :
  userSelectedPaymentMethod (snd (Rev2.resetPaymentOptions initialState)) = DIRECT_PAY
  /\ userSelectedPaymentMethod (snd (Rev2.resetPaymentOptions initialState)) <> PAD.
Proof. split; [reflexivity|discriminate]. Qed.

(** C8, amended.  After [resetPaymentOptions] the account snapshot is the
    empty object, [allowAlternatePaymentMethod] is false and the list of
    allowed payment methods is empty, in both revisions; the selected method
    is PAD in the first revision and DIRECT_PAY in the second. *)
Theorem resetPaymentOptions_result (w : State) :
  (fst (Rev1.resetPaymentOptions w) = Ok tt
   /\ userPaymentAccount (snd (Rev1.resetPaymentOptions w)) = emptyAccount
   /\ userSelectedPaymentMethod (snd (Rev1.resetPaymentOptions w)) = PAD
   /\ allowAlternatePaymentMethod (snd (Rev1.resetPaymentOptions w)) = false
   /\ allowedPaymentMethods (snd (Rev1.resetPaymentOptions w)) = [])
  /\ (fst (Rev2.resetPaymentOptions w) = Ok tt
      /\ userPaymentAccount (snd (Rev2.resetPaymentOptions w)) = emptyAccount
      /\ userSelectedPaymentMethod (snd (Rev2.resetPaymentOptions w)) = DIRECT_PAY
      /\ allowAlternatePaymentMethod (snd (Rev2.resetPaymentOptions w)) = false
      /\ allowedPaymentMethods (snd (Rev2.resetPaymentOptions w)) = []).
Proof. repeat split. Qed.

(** C9.  [$reset] is synchronous: as a task it is done with no suspension
    in between, returning normally.  It leaves the fee list empty, the folio
    number the empty string and the cache empty, and leaves the account
    snapshot, the selected method, the allowed methods and
    [allowAlternatePaymentMethod] (and the alerts) as they were. *)
Theorem reset_clears_ledger_only (w : State) :
  lift Rev1.dollar_reset w = Done (Ok tt) (snd (Rev1.dollar_reset w))
  /\ fees (snd (Rev1.dollar_reset w)) = []
  /\ folioNumber (snd (Rev1.dollar_reset w)) = ""
  /\ feeInfo (snd (Rev1.dollar_reset w)) = []
  /\ userPaymentAccount (snd (Rev1.dollar_reset w)) = userPaymentAccount w
  /\ userSelectedPaymentMethod (snd (Rev1.dollar_reset w)) = userSelectedPaymentMethod w
  /\ allowedPaymentMethods (snd (Rev1.dollar_reset w)) = allowedPaymentMethods w
  /\ allowAlternatePaymentMethod (snd (Rev1.dollar_reset w)) = allowAlternatePaymentMethod w
  /\ alerts (snd (Rev1.dollar_reset w)) = alerts w.
Proof. repeat split. Qed.

(** ** The two revisions *)

Lemma flushJobs_body_second w :
  Rev2.flushJobs w
  = if PaymentMethod_eqb (userSelectedPaymentMethod w) (watchSeen w) then w
    else Rev2.flushJobs
           (Rev2.watchCallback (set_watchSeen (userSelectedPaymentMethod w) w)).
Proof.
  funelim (Rev2.flushJobs w);
    match goal with
    | e : PaymentMethod_eqb _ _ = _ |- _ => rewrite e
    end; congruence.
Qed.

Lemma flushJobs_agree w : Rev1.flushJobs w = Rev2.flushJobs w.
Proof.
  funelim (Rev1.flushJobs w); rewrite flushJobs_body_second;
    match goal with
    | e : PaymentMethod_eqb _ _ = _ |- _ => rewrite e
    end; [reflexivity|assumption].
Qed.

Lemma run_ext {A} (f g : State -> State) remote (m : Async A) :
  (forall w, f w = g w) -> forall n, run f remote n m = run g remote n m.
Proof.
  intros Hfg. induction m as [r w|d w k IH|w k IH]; intros n; cbn [run].
  - now rewrite Hfg.
  - now rewrite Hfg, IH.
  - now rewrite Hfg, IH.
Qed.

(** C10.  The fee ledger operations of the two revisions are the same
    functions: on every input and every state [addFee], [removeFee],
    [loadFeeTypesAndCharges], [getFeeInfo], [addPayFees] and [$reset] of the
    first revision and of the second give the same result and the same
    state, suspension by suspension, and so do their runs against any
    remote. *)
Theorem revisions_agree_on_ledger :
  (forall x w, Rev1.addFee x w = Rev2.addFee x w)
  /\ (forall x w, Rev1.removeFee x w = Rev2.removeFee x w)
  /\ (forall folio ds w,
        Rev1.loadFeeTypesAndCharges folio ds w = Rev2.loadFeeTypesAndCharges folio ds w)
  /\ (forall d t w, Rev1.getFeeInfo d t w = Rev2.getFeeInfo d t w)
  /\ (forall feeType feeCode w,
        Rev1.addPayFees feeType feeCode w = Rev2.addPayFees feeType feeCode w)
  /\ (forall w, Rev1.dollar_reset w = Rev2.dollar_reset w)
  /\ (forall remote n feeType feeCode w,
        run Rev1.flushJobs remote n (Rev1.addPayFees feeType feeCode w)
        = run Rev2.flushJobs remote n (Rev2.addPayFees feeType feeCode w)).
Proof.
  repeat split. intros remote n feeType feeCode w.
  change (Rev2.addPayFees feeType feeCode w) with (Rev1.addPayFees feeType feeCode w).
  apply run_ext, flushJobs_agree.
Qed.

(** ** More on the ledger *)

Lemma index_of_absent x l :
  (forall f, In f l -> key f <> keyOf x) -> index_of (keyEq x) l = None.
Proof.
  intros H. apply index_of_None. intros f Hf.
  destruct (keyEq x f) eqn:E; [|reflexivity].
  apply keyEq_true in E. now apply H in Hf.
Qed.

Lemma removeFee_not_found x w :
  index_of (keyEq x) (fees w) = None -> Rev1.removeFee (Some x) w = (Ok tt, w).
Proof.
  intros H. unfold Rev1.removeFee, js_find.
  rewrite findIndex_sameFiling, H. reflexivity.
Qed.

(** X1.  [removeFee] with an item whose key no entry of the ledger has
    returns normally and changes nothing at all. *)
Theorem removeFee_absent_key (x : FeeInfo) (w : State) :
  (forall f, In f (fees w) -> key f <> keyOf x) ->
  Rev1.removeFee (Some x) w = (Ok tt, w).
Proof.
  intros H. apply removeFee_not_found, index_of_absent, H.
Qed.

Lemma removeFee_absent_key_witness :
  Rev1.removeFee (Some bcann) initialState = (Ok tt, initialState).
Proof.
  apply (removeFee_absent_key bcann initialState). simpl. intros f [].
Defined.

(** X2.  A call with [null] or [undefined] instead of a fee item: on a
    ledger that holds an entry, [addFee] and [removeFee] both throw a
    TypeError from inside the [find] callback and change nothing; on the
    empty ledger the callback never runs, [addFee] logs the diagnostic and
    [removeFee] does nothing, and both return normally. *)
Theorem ledger_calls_without_item (w : State) :
  (fees w <> [] ->
   Rev1.addFee None w = (Threw TypeError, w)
   /\ Rev1.removeFee None w = (Threw TypeError, w))
  /\ (fees w = [] ->
      Rev1.addFee None w = (Ok tt, console_error invalidFeeLine w)
      /\ Rev1.removeFee None w = (Ok tt, w)).
Proof.
  unfold Rev1.addFee, Rev1.removeFee, js_find. split; intros H.
  - destruct (fees w) as [|f rest]; [congruence|]. split; reflexivity.
  - rewrite H. split; reflexivity.
Qed.

Lemma ledger_calls_without_item_witness :
  Rev1.addFee None oneBcann = (Threw TypeError, oneBcann)
  /\ Rev1.removeFee None initialState = (Ok tt, initialState).
Proof.
  split.
  - apply (proj1 (ledger_calls_without_item oneBcann)). discriminate.
  - apply (proj2 (ledger_calls_without_item initialState)). reflexivity.
Defined.

Lemma filter_update_at {A} (p : A -> bool) (g : A -> A) i l :
  (forall a, nth_error l i = Some a -> p a = false /\ p (g a) = false) ->
  filter p (update_at i g l) = filter p l.
Proof.
  revert i. induction l as [|x rest IH]; intros [|j] H; simpl; auto.
  - destruct (H x eq_refl) as [-> ->]. reflexivity.
  - rewrite IH; auto.
Qed.

Lemma filter_splice1 {A} (p : A -> bool) i l :
  (forall a, nth_error l i = Some a -> p a = false) ->
  filter p (splice1 i l) = filter p l.
Proof.
  unfold splice1. revert i. induction l as [|x rest IH]; intros [|j] H; simpl.
  - reflexivity.
  - reflexivity.
  - now rewrite (H x eq_refl).
  - f_equal. destruct (p x); [f_equal|]; apply IH; auto.
Qed.

(** X3.  [addFee] and [removeFee] touch the ledger, the identifier
    generator and the console only: the folio number, the cache, the four
    payment refs and the alerts stay as they were, whatever the argument.
    Called with a fee item, they leave every entry with another key in
    place and in order, and add no entry with another key. *)
Theorem ledger_calls_frame (arg : option FeeInfo) (x : FeeInfo) (w : State) :
  sameBesidesLedger w (snd (Rev1.addFee arg w))
  /\ sameBesidesLedger w (snd (Rev1.removeFee arg w))
  /\ others x (fees (snd (Rev1.addFee (Some x) w))) = others x (fees w)
  /\ others x (fees (snd (Rev1.removeFee (Some x) w))) = others x (fees w).
Proof.
  unfold sameBesidesLedger, others. split; [|split].
  - unfold Rev1.addFee.
    destruct (js_find (Rev1.sameFiling arg) (fees w)) as [[i|]|e]; simpl;
      [tauto| |tauto].
    destruct arg as [y|]; simpl; [|tauto].
    destruct (nullish (total y) || nullish (filingFees y) || nullish (filingTypeCode y));
      simpl; tauto.
  - unfold Rev1.removeFee.
    destruct (js_find (Rev1.sameFiling arg) (fees w)) as [[i|]|e]; simpl;
      [| |tauto].
    + destruct (nth_error (fees w) i) as [f|]; simpl.
      * destruct (quantity f) as [q|]; simpl.
        -- destruct (negb (q =? 0)%Z && (1 <? q)%Z); simpl; [tauto|].
           destruct (js_findIndex _ _) as [[j|]|e]; simpl; tauto.
        -- destruct (js_findIndex _ _) as [[j|]|e]; simpl; tauto.
      * destruct (js_findIndex _ _) as [[j|]|e]; simpl; tauto.
    + destruct (js_findIndex _ _) as [[j|]|e]; simpl; tauto.
  - split.
    + unfold Rev1.addFee, js_find. rewrite findIndex_sameFiling.
      destruct (index_of (keyEq x) (fees w)) as [i|] eqn:E; simpl.
      * apply filter_update_at. intros a Ha.
        destruct (index_of_Some _ _ _ E) as (a' & Ha' & Hk).
        assert (a' = a) as -> by congruence.
        unfold keyEq in *. destruct (quantity a); simpl; rewrite Hk; auto.
      * destruct (nullish (total x) || nullish (filingFees x) || nullish (filingTypeCode x));
          simpl; [reflexivity|].
        rewrite filter_app. simpl.
        replace (keyEq x {| info := x; quantity := Some 1%Z; uiUuid := uuidNext w |})
          with true by (symmetry; now apply keyEq_true).
        simpl. apply app_nil_r.
    + unfold Rev1.removeFee, js_find. rewrite findIndex_sameFiling.
      destruct (index_of (keyEq x) (fees w)) as [i|] eqn:E; [|reflexivity].
      destruct (index_of_Some _ _ _ E) as (a & Ha & Hk). rewrite Ha.
      destruct (match quantity a with
                | Some n => negb (n =? 0)%Z && (1 <? n)%Z
                | None => false
                end); simpl.
      * apply filter_update_at. intros b Hb.
        assert (b = a) as -> by congruence.
        unfold keyEq in *. simpl. rewrite Hk. auto.
      * apply filter_splice1. intros b Hb.
        assert (b = a) as -> by congruence. now rewrite Hk.
Qed.

(** *** Counting adds and removes *)







Lemma keyEq_withQuantity x q f : keyEq x (withQuantity q f) = keyEq x f.
Proof. reflexivity. Qed.















(** *** The identifiers of the entries *)

Lemma Forall_splice1 {A} (P : A -> Prop) i l :
  Forall P l -> Forall P (splice1 i l).
Proof.
  intros H. apply Forall_forall. intros a Ha. apply splice1_incl in Ha.
  eapply Forall_forall in H; eauto.
Qed.

Lemma addFee_ids arg w :
  ids_ok (uuidNext w) (fees w) ->
  ids_ok (uuidNext (snd (Rev1.addFee arg w))) (fees (snd (Rev1.addFee arg w))).
Proof.
  intros [Hnd Hlt]. unfold Rev1.addFee.
  destruct (js_find (Rev1.sameFiling arg) (fees w)) as [[i|]|e]; simpl.
  - split.
    + rewrite map_update_at; [exact Hnd|]. intros a. now destruct (quantity a).
    + apply Forall_update_at; [exact Hlt|]. intros a _ Ha.
      now destruct (quantity a).
  - destruct arg as [x|]; simpl; [|now split].
    destruct (nullish (total x) || nullish (filingFees x) || nullish (filingTypeCode x));
      simpl; [now split|].
    split.
    + rewrite map_app. simpl. apply NoDup_rev in Hnd.
      rewrite <- (rev_involutive (_ ++ _)). apply NoDup_rev.
      rewrite rev_app_distr. simpl. constructor; [|exact Hnd].
      rewrite <- in_rev, in_map_iff. intros (f & Hid & Hin).
      eapply Forall_forall in Hlt; eauto. lia.
    + apply Forall_app. split.
      * eapply Forall_impl; [|exact Hlt]. simpl. intros a Ha. lia.
      * constructor; [simpl; lia|constructor].
  - now split.
Qed.

Lemma removeFee_ids arg w :
  ids_ok (uuidNext w) (fees w) ->
  ids_ok (uuidNext (snd (Rev1.removeFee arg w))) (fees (snd (Rev1.removeFee arg w))).
Proof.
  intros [Hnd Hlt].
  assert (forall i, ids_ok (uuidNext w) (splice1 i (fees w))) as Hsplice
    by (intros i; split; [now apply NoDup_map_splice1|now apply Forall_splice1]).
  assert (ids_ok (uuidNext w)
            (fees (snd (match js_findIndex (Rev1.sameFiling arg) (fees w) with
                        | Threw e => (Threw e, w)
                        | Ok (Some index) => (Ok tt, set_fees (splice1 index (fees w)) w)
                        | Ok None => (Ok tt, w)
                        end)))) as Helse
    by (destruct (js_findIndex _ _) as [[j|]|e]; simpl; [apply Hsplice| |]; now split).
  unfold Rev1.removeFee.
  destruct (js_find (Rev1.sameFiling arg) (fees w)) as [[i|]|e]; simpl;
    [| |now split].
  - destruct (match
                 match nth_error (fees w) i with
                 | Some f => quantity f
                 | None => None
                 end
               with
               | Some n => negb (n =? 0)%Z && (1 <? n)%Z
               | None => false
               end).
    + simpl. split.
      * rewrite map_update_at; [exact Hnd|]. reflexivity.
      * apply Forall_update_at; [exact Hlt|]. intros a _ Ha. exact Ha.
    + destruct (js_findIndex _ _) as [[j|]|e]; simpl;
        [apply Hsplice| |]; now split.
  - destruct (js_findIndex _ _) as [[j|]|e]; simpl;
      [apply Hsplice| |]; now split.
Qed.

(** X6.  Given a generator that never hands out an identifier twice, the
    entries of a ledger built by [addFee] and [removeFee] calls from the
    empty ledger carry pairwise distinct [uiUuid]s, all handed out before:
    raising or lowering a quantity keeps the identifier of the entry, and a
    new entry never takes the identifier of one that is or was there. *)
Theorem ledger_identifiers_distinct (cs : list LedgerCall) (w : State) :
  fees w = [] ->
  NoDup (map uiUuid (fees (afterCalls cs w)))
  /\ Forall (fun f => uiUuid f < uuidNext (afterCalls cs w)) (fees (afterCalls cs w)).
Proof.
  intros Hempty.
  assert (ids_ok (uuidNext w) (fees w)) as H
    by (rewrite Hempty; split; constructor).
  clear Hempty. revert w H. unfold afterCalls.
  induction cs as [|c cs IH]; intros w H; simpl; [exact H|].
  apply IH. unfold call.
  assert (ids_ok (uuidNext (snd (perform c w))) (fees (snd (perform c w)))) as Hc
    by (destruct c; simpl; [now apply addFee_ids | now apply removeFee_ids]).
  destruct (perform c w) as [r w']. simpl in *.
  destruct (flushJobs_frame w') as [(h1 & _ & _ & h4 & _) _].
  now rewrite h1, h4.
Qed.

Lemma ledger_identifiers_distinct_witness :
  NoDup (map uiUuid (fees (afterCalls
    [CallAddFee (Some bcann); CallRemoveFee (Some bcann);
     CallAddFee (Some bcann)] initialState))).
Proof.
  apply (ledger_identifiers_distinct
           [CallAddFee (Some bcann); CallRemoveFee (Some bcann);
            CallAddFee (Some bcann)] initialState).
  reflexivity.
Defined.

(** ** More on the cache *)

Lemma find_app_l {A} (p : A -> bool) l extra e :
  find p l = Some e -> find p (l ++ extra) = Some e.
Proof.
  induction l as [|x rest IH]; simpl; [discriminate|].
  destruct (p x); auto.
Qed.

Lemma fetchEach_grows remote ds : forall n w,
  exists extra,
    feeInfo (final (exec remote n (Rev1.fetchEach ds w)))
    = (feeInfo w ++ extra)%list.
Proof.
  unfold exec. induction ds as [|d rest IH]; intros n w;
    cbn [Rev1.fetchEach run final].
  - exists []. now rewrite flushJobs_feeInfo, app_nil_r.
  - destruct (fetchFee remote n d) as [[fee|]|e].
    + destruct (IH (S n)
                  (set_feeInfo (feeInfo (Rev1.flushJobs w) ++ [(d, fee)])
                     (Rev1.flushJobs w))) as [extra H].
      exists ((d, fee) :: extra). rewrite H. cbn [feeInfo set_feeInfo].
      now rewrite flushJobs_feeInfo, <- app_assoc.
    + destruct (IH (S n) (Rev1.flushJobs w)) as [extra H].
      exists extra. now rewrite H, flushJobs_feeInfo.
    + exists []. cbn [run final]. now rewrite !flushJobs_feeInfo, app_nil_r.
Qed.

Lemma getFeeInfo_at_once d w info :
  Rev1.getFeeInfo d true w = Done (Ok (Some info)) w ->
  exists e, find (Rev1.sameFilingData d) (feeInfo w) = Some e /\ snd e = info.
Proof.
  rewrite getFeeInfo_body.
  destruct (find (Rev1.sameFilingData d) (feeInfo w)) as [e|].
  - intros H. exists e. split; [reflexivity|]. congruence.
  - unfold Rev1.loadFeeTypesAndCharges. cbn [Rev1.fetchEach andThen]. discriminate.
Qed.

(** X7.  The cache only grows at its end, and [getFeeInfo] answers with the
    oldest entry of a key.  So once [getFeeInfo] answers a descriptor at
    once with some fee info, it keeps answering with that same fee info
    after any later [loadFeeTypesAndCharges], whatever the batch holds (the
    same descriptor again, with another fee, included) and whether or not
    the batch ends in a rejection. *)
Theorem cached_answer_is_stable (d : FeeData) (info : FeeInfo) (w : State)
    (remote : Remote) (n : nat) (newFolioNumber : string) (ds : list FeeData) :
  Rev1.getFeeInfo d true w = Done (Ok (Some info)) w ->
  (exists extra,
     feeInfo (final (exec remote n (Rev1.loadFeeTypesAndCharges newFolioNumber ds w)))
     = (feeInfo w ++ extra)%list)
  /\ Rev1.getFeeInfo d true
       (final (exec remote n (Rev1.loadFeeTypesAndCharges newFolioNumber ds w)))
     = Done (Ok (Some info))
         (final (exec remote n (Rev1.loadFeeTypesAndCharges newFolioNumber ds w))).
Proof.
  intros H. apply getFeeInfo_at_once in H as (e & He & <-).
  unfold Rev1.loadFeeTypesAndCharges.
  destruct (fetchEach_grows remote ds n (set_folioNumber newFolioNumber w))
    as [extra Hextra].
  cbn [feeInfo set_folioNumber] in Hextra.
  split; [now exists extra|].
  rewrite getFeeInfo_body, Hextra, (find_app_l _ _ extra e He). reflexivity.
Qed.

Lemma cached_answer_is_stable_witness :
  Rev1.getFeeInfo (feeData "BC" "BCANN") true
    (final (exec dearerRemote 0
       (Rev1.loadFeeTypesAndCharges "F2" [feeData "BC" "BCANN"] bcannCached)))
  = Done (Ok (Some bcann))
      (final (exec dearerRemote 0
         (Rev1.loadFeeTypesAndCharges "F2" [feeData "BC" "BCANN"] bcannCached))).
Proof.
  apply (cached_answer_is_stable (feeData "BC" "BCANN") bcann bcannCached
           dearerRemote 0 "F2" [feeData "BC" "BCANN"]).
  reflexivity.
Defined.

Lemma set_folioNumber_same w : set_folioNumber (folioNumber w) w = w.
Proof. now destruct w. Qed.

(** X8.  [getFeeInfo] never touches the ledger or the folio number (the
    single-item load it may do writes the folio number that is already
    there), and the cache is either as it was or longer by one entry, an
    entry for the descriptor that was asked for. *)
Theorem getFeeInfo_frame (d : FeeData) (t : bool) (w : State)
    (remote : Remote) (n : nat) :
  fees (final (exec remote n (Rev1.getFeeInfo d t w))) = fees w
  /\ folioNumber (final (exec remote n (Rev1.getFeeInfo d t w))) = folioNumber w
  /\ (feeInfo (final (exec remote n (Rev1.getFeeInfo d t w))) = feeInfo w
      \/ exists fee,
           feeInfo (final (exec remote n (Rev1.getFeeInfo d t w)))
           = (feeInfo w ++ [(d, fee)])%list).
Proof.
  rewrite getFeeInfo_body. unfold exec.
  destruct (find (Rev1.sameFilingData d) (feeInfo w)) as [e|] eqn:Hfind.
  - cbn [run final].
    now rewrite flushJobs_fees, flushJobs_folioNumber, flushJobs_feeInfo; auto.
  - destruct t.
    + unfold Rev1.loadFeeTypesAndCharges. rewrite set_folioNumber_same.
      cbn [Rev1.fetchEach andThen run final].
      destruct (fetchFee remote n d) as [[fee|]|e]; cbn [Rev1.fetchEach andThen].
      * destruct (getFeeInfo_false d
                    (set_feeInfo (feeInfo (Rev1.flushJobs w) ++ [(d, fee)])
                       (Rev1.flushJobs w))) as [r ->].
        cbn [run final].
        rewrite flushJobs_fees, flushJobs_folioNumber, flushJobs_feeInfo.
        cbn [fees folioNumber feeInfo set_feeInfo].
        rewrite flushJobs_fees, flushJobs_folioNumber, flushJobs_feeInfo.
        split; [reflexivity|split; [reflexivity|right; now exists fee]].
      * destruct (getFeeInfo_false d (Rev1.flushJobs w)) as [r ->].
        cbn [run final].
        rewrite !flushJobs_fees, !flushJobs_folioNumber, !flushJobs_feeInfo.
        auto.
      * cbn [run final].
        rewrite !flushJobs_fees, !flushJobs_folioNumber, !flushJobs_feeInfo.
        auto.
    + cbn [run final].
      now rewrite flushJobs_fees, flushJobs_folioNumber, flushJobs_feeInfo; auto.
Qed.

(** X9.  [$reset] forgets the cache: whatever was cached before, the next
    [getFeeInfo] for any descriptor goes to the remote service again, with
    exactly one call. *)
Theorem reset_then_getFeeInfo_fetches (d : FeeData) (w : State)
    (remote : Remote) (n : nat) :
  calls (exec remote n (Rev1.getFeeInfo d true (snd (Rev1.dollar_reset w))))
  = [FetchFee d].
Proof.
  apply (getFeeInfo_load d (snd (Rev1.dollar_reset w)) remote n). reflexivity.
Qed.

(** ** [addPayFees] *)












(** ** More on the payment method selector *)

Lemma flushJobs_not_pending w :
  Rev1.includes Rev1.PAD_PENDING_STATES (Rev1.cfsStatus (userPaymentAccount w)) = false ->
  Rev1.flushJobs w = set_watchSeen (userSelectedPaymentMethod w) w.
Proof.
  intros Hs. rewrite flushJobs_body.
  destruct (PaymentMethod_eqb (userSelectedPaymentMethod w) (watchSeen w)) eqn:E.
  - apply PaymentMethod_eqb_eq in E. rewrite E. symmetry. apply set_watchSeen_same.
  - assert (Rev1.watchCallback (set_watchSeen (userSelectedPaymentMethod w) w)
            = set_watchSeen (userSelectedPaymentMethod w) w) as ->.
    { unfold Rev1.watchCallback. cbn [userPaymentAccount set_watchSeen].
      rewrite Hs. now destruct (Rev1.cfsStatus (userPaymentAccount w)). }
    apply flushJobs_quiet. reflexivity.
Qed.

Lemma watchCallback_pending w :
  Rev1.includes Rev1.PAD_PENDING_STATES (Rev1.cfsStatus (userPaymentAccount w)) = true ->
  Rev1.watchCallback w
  = addAlert paymentMethodAlert (set_userSelectedPaymentMethod DIRECT_PAY w).
Proof.
  intros Hs. unfold Rev1.watchCallback. rewrite Hs.
  destruct (Rev1.cfsStatus (userPaymentAccount w)); [reflexivity|discriminate].
Qed.

Lemma flushJobs_pending w :
  Rev1.includes Rev1.PAD_PENDING_STATES (Rev1.cfsStatus (userPaymentAccount w)) = true ->
  userSelectedPaymentMethod w <> watchSeen w ->
  userSelectedPaymentMethod (Rev1.flushJobs w) = DIRECT_PAY
  /\ alerts (Rev1.flushJobs w)
     = (alerts w ++ match userSelectedPaymentMethod w with
                    | PAD => [paymentMethodAlert; paymentMethodAlert]
                    | DIRECT_PAY => [paymentMethodAlert]
                    end)%list.
Proof.
  intros Hs Hne. rewrite flushJobs_body.
  destruct (PaymentMethod_eqb (userSelectedPaymentMethod w) (watchSeen w)) eqn:E;
    [apply PaymentMethod_eqb_eq in E; contradiction|].
  rewrite watchCallback_pending by exact Hs.
  destruct (userSelectedPaymentMethod w) eqn:Hsel.
  - rewrite flushJobs_quiet by reflexivity. split; reflexivity.
  - rewrite flushJobs_body.
    cbn [userSelectedPaymentMethod watchSeen addAlert set_alerts
         set_userSelectedPaymentMethod set_watchSeen PaymentMethod_eqb].
    rewrite watchCallback_pending by exact Hs.
    rewrite flushJobs_quiet by reflexivity.
    cbn [userSelectedPaymentMethod alerts addAlert set_alerts
         set_userSelectedPaymentMethod set_watchSeen].
    split; [reflexivity|]. now rewrite <- app_assoc.
Qed.

(** X13.  What a flush of the watcher does, for every state.  While the
    account snapshot is not in a pending PAD state (no status, or ACTIVE),
    the watcher records the value it saw and nothing else: no alert, the
    selection stays.  While it is in a pending state, any change of the
    selection ends with DIRECT_PAY selected; a change to PAD records two
    alerts and a change to DIRECT_PAY records one.  A second flush right
    after the first does nothing. *)
Theorem watcher_flush (w : State) :
  (Rev1.includes Rev1.PAD_PENDING_STATES (Rev1.cfsStatus (userPaymentAccount w)) = false ->
   Rev1.flushJobs w = set_watchSeen (userSelectedPaymentMethod w) w)
  /\ (Rev1.includes Rev1.PAD_PENDING_STATES (Rev1.cfsStatus (userPaymentAccount w)) = true ->
      userSelectedPaymentMethod w <> watchSeen w ->
      userSelectedPaymentMethod (Rev1.flushJobs w) = DIRECT_PAY
      /\ alerts (Rev1.flushJobs w)
         = (alerts w ++ match userSelectedPaymentMethod w with
                        | PAD => [paymentMethodAlert; paymentMethodAlert]
                        | DIRECT_PAY => [paymentMethodAlert]
                        end)%list)
  /\ Rev1.flushJobs (Rev1.flushJobs w) = Rev1.flushJobs w.
Proof.
  split; [apply flushJobs_not_pending|]. split; [apply flushJobs_pending|].
  apply flushJobs_quiet, flushJobs_settles.
Qed.

Lemma watcher_flush_witness :
  Rev1.flushJobs (set_userSelectedPaymentMethod PAD
                    (set_userPaymentAccount activeAccount initialState))
  = set_watchSeen PAD (set_userSelectedPaymentMethod PAD
                         (set_userPaymentAccount activeAccount initialState))
  /\ userSelectedPaymentMethod
       (Rev1.flushJobs (set_watchSeen PAD pendingStore)) = DIRECT_PAY.
Proof.
  split.
  - apply (proj1 (watcher_flush (set_userSelectedPaymentMethod PAD
                    (set_userPaymentAccount activeAccount initialState)))).
    reflexivity.
  - apply (proj1 (proj2 (watcher_flush (set_watchSeen PAD pendingStore)))).
    + reflexivity.
    + discriminate.
Defined.

(** X14.  A successful [initPaymentMethod] (first revision).  When the
    payment account request is fulfilled, the function returns normally
    after that one call; the snapshot is the response,
    [allowAlternatePaymentMethod] is true and both methods are offered,
    credit card first, the PAD option labelled with the bank account number
    of the response (or with nothing when it has none).  If the status of
    the response is not a pending PAD state, PAD is selected and no alert is
    recorded.  If it is, DIRECT_PAY is selected, and the watcher, which sees
    that change with the pending snapshot in place, records one alert of
    category PAYMENT_METHOD although nothing failed.  The ledger refs are
    not touched. *)
Theorem initPaymentMethod_success (remote : Remote) (n : nat) (w : State)
    (response : ConnectPayAccount) :
  getPaymentAccount remote n = Fulfilled response ->
  result (exec remote n (Rev1.initPaymentMethod w)) = Ok tt
  /\ calls (exec remote n (Rev1.initPaymentMethod w)) = [GetPaymentAccount]
  /\ userPaymentAccount (final (exec remote n (Rev1.initPaymentMethod w))) = response
  /\ allowAlternatePaymentMethod (final (exec remote n (Rev1.initPaymentMethod w))) = true
  /\ allowedPaymentMethods (final (exec remote n (Rev1.initPaymentMethod w)))
     = bothPaymentMethods (accountNumOf response)
  /\ (if Rev1.includes Rev1.PAD_PENDING_STATES (Rev1.cfsStatus response)
      then userSelectedPaymentMethod (final (exec remote n (Rev1.initPaymentMethod w)))
           = DIRECT_PAY
           /\ alerts (final (exec remote n (Rev1.initPaymentMethod w)))
              = (alerts w ++ [paymentMethodAlert])%list
      else userSelectedPaymentMethod (final (exec remote n (Rev1.initPaymentMethod w)))
           = PAD
           /\ alerts (final (exec remote n (Rev1.initPaymentMethod w))) = alerts w)
  /\ fees (final (exec remote n (Rev1.initPaymentMethod w))) = fees w
  /\ folioNumber (final (exec remote n (Rev1.initPaymentMethod w))) = folioNumber w
  /\ feeInfo (final (exec remote n (Rev1.initPaymentMethod w))) = feeInfo w.
Proof.
  intros Hreply. unfold exec, Rev1.initPaymentMethod.
  cbn [tryCatch run result calls final]. rewrite Hreply.
  rewrite (flushJobs_no_status (snd (Rev1.resetPaymentOptions w))) by reflexivity.
  cbn [snd Rev1.resetPaymentOptions userSelectedPaymentMethod userPaymentAccount
       set_userPaymentAccount set_userSelectedPaymentMethod
       set_allowAlternatePaymentMethod set_allowedPaymentMethods set_watchSeen
       cfsAccount].
  fold (accountNumOf response).
  destruct (Rev1.includes Rev1.PAD_PENDING_STATES (Rev1.cfsStatus response)) eqn:Hp;
    cbn [tryCatch run result calls final].
  - match goal with
    | |- context [Rev1.flushJobs ?s] =>
        destruct (flushJobs_frame s) as [(h1 & h2 & h3 & _) (h4 & h5 & h6)];
        destruct (flushJobs_pending s) as [h7 h8];
        [exact Hp | discriminate |];
        rewrite h1, h2, h3, h4, h5, h6, h7, h8
    end.
    repeat split.
  - match goal with
    | |- context [Rev1.flushJobs ?s] =>
        rewrite (flushJobs_quiet s) by reflexivity
    end.
    repeat split.
Qed.

Lemma initPaymentMethod_success_witness :
  alerts (final (exec (accountRemote pendingAccount) 0
                   (Rev1.initPaymentMethod initialState)))
  = [paymentMethodAlert]
  /\ userSelectedPaymentMethod
       (final (exec (accountRemote activeAccount) 0
                 (Rev1.initPaymentMethod initialState))) = PAD.
Proof.
  split.
  - destruct (initPaymentMethod_success (accountRemote pendingAccount) 0
                initialState pendingAccount eq_refl)
      as (_ & _ & _ & _ & _ & H & _).
    exact (proj2 H).
  - destruct (initPaymentMethod_success (accountRemote activeAccount) 0
                initialState activeAccount eq_refl)
      as (_ & _ & _ & _ & _ & H & _).
    exact (proj1 H).
Defined.

(** X15.  Lookup after load.  For a descriptor that is not cached,
    [getFeeInfo] with loading allowed hands back exactly what the remote
    service answered to its one call: the fee (which is then the cached
    entry of the descriptor), [undefined] when the service answered
    [undefined] (nothing is cached), and the rejection as a throw when the
    call was rejected (nothing is cached). *)
Theorem getFeeInfo_returns_fetched (d : FeeData) (w : State)
    (remote : Remote) (n : nat) :
  find (Rev1.sameFilingData d) (feeInfo w) = None ->
  match fetchFee remote n d with
  | Rejected e =>
      result (exec remote n (Rev1.getFeeInfo d true w)) = Threw e
      /\ feeInfo (final (exec remote n (Rev1.getFeeInfo d true w))) = feeInfo w
  | Fulfilled None =>
      result (exec remote n (Rev1.getFeeInfo d true w)) = Ok None
      /\ feeInfo (final (exec remote n (Rev1.getFeeInfo d true w))) = feeInfo w
  | Fulfilled (Some fee) =>
      result (exec remote n (Rev1.getFeeInfo d true w)) = Ok (Some fee)
      /\ feeInfo (final (exec remote n (Rev1.getFeeInfo d true w)))
         = (feeInfo w ++ [(d, fee)])%list
  end.
Proof. intros H. apply (getFeeInfo_load d w remote n H). Qed.

Lemma getFeeInfo_returns_fetched_witness :
  result (exec bcannRemote 0 (Rev1.getFeeInfo (feeData "BC" "BCANN") true initialState))
  = Ok (Some bcann)
  /\ result (exec flakyRemote 0 (Rev1.getFeeInfo (feeData "BC" "BCANN") true initialState))
     = Threw (FetchError "503").
Proof.
  split.
  - apply (getFeeInfo_returns_fetched (feeData "BC" "BCANN") initialState bcannRemote 0).
    reflexivity.
  - apply (getFeeInfo_returns_fetched (feeData "BC" "BCANN") initialState flakyRemote 0).
    reflexivity.
Defined.

(** ** The create account page *)

Lemma sameCountry_true a b : CreateAccount.sameCountry a b = true -> a = b.
Proof.
  destruct a as [x|], b as [y|]; simpl; try discriminate; auto.
  intros H. apply String.eqb_eq in H. now subst.
Qed.

Lemma selectCountry_result c p :
  CreateAccount.country (CreateAccount.selectCountry c p) = c
  /\ CreateAccount.region (CreateAccount.selectCountry c p)
     = if Bool.eqb (CreateAccount.dropdownFor c)
            (CreateAccount.dropdownFor (CreateAccount.country p))
       then CreateAccount.region p else None.
Proof.
  unfold CreateAccount.selectCountry.
  destruct (CreateAccount.sameCountry c (CreateAccount.country p)) eqn:E.
  - apply sameCountry_true in E. subst c. now rewrite Bool.eqb_reflx.
  - unfold CreateAccount.onCountryChange, CreateAccount.dropdownFor,
      CreateAccount.isRegionDropdown. cbn [CreateAccount.country].
    destruct (CreateAccount.caOrUs (option_map CreateAccount.toLowerCase c)),
      (CreateAccount.caOrUs
         (option_map CreateAccount.toLowerCase (CreateAccount.country p)));
      simpl; auto.
Qed.

(** X16.  Country changes on the create account page.  After any series of
    country selections (with no edit of the region in between) the region
    is what it was if every country selected gives the region field the
    same widget as the country at the start, dropdown or free text, and is
    [undefined] otherwise.  So going from CA to US and back keeps the region
    whatever it holds, while one selection of a country without dropdown
    clears it for the rest of the series. *)
Theorem region_after_country_changes (cs : list (option string))
    (p : CreateAccount.Page) :
  CreateAccount.region (CreateAccount.selectCountries cs p)
  = if forallb (fun c => Bool.eqb (CreateAccount.dropdownFor c)
                           (CreateAccount.dropdownFor (CreateAccount.country p))) cs
    then CreateAccount.region p else None.
Proof.
  unfold CreateAccount.selectCountries. revert p.
  induction cs as [|c cs IH]; intros p; [reflexivity|].
  cbn [fold_left forallb]. rewrite IH.
  destruct (selectCountry_result c p) as [-> ->].
  destruct (Bool.eqb (CreateAccount.dropdownFor c)
              (CreateAccount.dropdownFor (CreateAccount.country p))) eqn:E.
  - apply Bool.eqb_prop in E. now rewrite E.
  - cbn [andb]. now destruct (forallb _ cs).
Qed.

Example region_survives_ca_us_ca :
  CreateAccount.region
    (CreateAccount.selectCountries [Some "US"; Some "ca"; Some "Us"]
       {| CreateAccount.country := Some "CA"; CreateAccount.region := Some "BC";
          CreateAccount.regionValidations := 0 |}) = Some "BC"
  /\ CreateAccount.region
       (CreateAccount.selectCountries [Some "US"; Some "FR"; Some "CA"]
          {| CreateAccount.country := Some "CA"; CreateAccount.region := Some "BC";
             CreateAccount.regionValidations := 0 |}) = None.
Proof. split; reflexivity. Qed.
